(** * lua_call: the script transformation, the registry and the callers

    A shallow embedding of [lua_call.py].  Python 2 [str] values are byte
    strings and are modelled by [string]; the two compiled regular
    expressions of the module are written as syntax trees and run by a
    backtracking matcher with the priorities of Python's [re] engine. *)

From Stdlib Require Import Ascii String NArith List Lia.
From stdpp Require Import gmap strings.

Local Arguments String.append !_ _ / : simpl nomatch.

(** ** Python [str] methods used by the module *)

Module Str.

Definition newline : ascii := "010"%char.

(** [c in s] for a one-character [c]. *)
Fixpoint contains (c : ascii) (s : string) : bool :=
  match s with
  | EmptyString => false
  | String a t => Ascii.eqb a c || contains c t
  end.

(** [s.replace(c, by)] for a one-character [c]. *)
Fixpoint replace (c : ascii) (by_ : string) (s : string) : string :=
  match s with
  | EmptyString => EmptyString
  | String a t => (if Ascii.eqb a c then by_ else String a "") +:+ replace c by_ t
  end.

(** [s.lstrip(c)]: every leading [c] is dropped. *)
Fixpoint lstrip (c : ascii) (s : string) : string :=
  match s with
  | String a t => if Ascii.eqb a c then lstrip c t else s
  | EmptyString => EmptyString
  end.

(** [s.rstrip(c)]: every trailing [c] is dropped. *)
Fixpoint rstrip (c : ascii) (s : string) : string :=
  match s with
  | EmptyString => EmptyString
  | String a t =>
      match rstrip c t with
      | EmptyString => if Ascii.eqb a c then EmptyString else String a ""
      | t' => String a t'
      end
  end.

(** [s.startswith(p)]. *)
Fixpoint startswith (s p : string) {struct p} : bool :=
  match p with
  | EmptyString => true
  | String b p' =>
      match s with
      | String a s' => Ascii.eqb a b && startswith s' p'
      | EmptyString => false
      end
  end.

(** Truth value of a string in a condition: non-empty. *)
Definition truthy (s : string) : bool :=
  match s with EmptyString => false | _ => true end.

(** First character, if any. *)
Definition head (s : string) : option ascii :=
  match s with EmptyString => None | String a _ => Some a end.

(** [s[:n]]. *)
Fixpoint take (n : nat) (s : string) : string :=
  match n, s with
  | S n', String a t => String a (take n' t)
  | _, _ => EmptyString
  end.

(** [s[n:]]. *)
Fixpoint drop (n : nat) (s : string) : string :=
  match n, s with
  | S n', String _ t => drop n' t
  | _, _ => s
  end.

(** Last character of [s], or [d] when [s] is empty. *)
Fixpoint last (d : option ascii) (s : string) : option ascii :=
  match s with
  | EmptyString => d
  | String a t => last (Some a) t
  end.

(** [s] without its prefix [p], when [s] starts with [p]. *)
Fixpoint strip (p s : string) : option string :=
  match p with
  | EmptyString => Some s
  | String b p' =>
      match s with
      | String a s' => if Ascii.eqb a b then strip p' s' else None
      | EmptyString => None
      end
  end.

End Str.

(** ** Regular expressions

    The subset of Python's [re] syntax that the module uses, and a
    backtracking matcher for it. *)

Module Re.

Inductive item :=
| One (c : ascii)            (* a character of a set *)
| Range (lo hi : ascii).     (* lo-hi *)

Inductive cls :=
| Any                        (* .    every character but the newline *)
| Space                      (* \s   [ \t\n\r\f\v] *)
| Set_ (items : list item)   (* [...]  *)
| NSet (items : list item).  (* [^...] *)

Inductive re :=
| Lit (s : string)           (* literal characters *)
| Cls (c : cls)              (* one character of a class *)
| Bol                        (* ^ *)
| Eol                        (* $ *)
| Cat (r1 r2 : re)           (* r1r2 *)
| Alt (r1 r2 : re)           (* r1|r2 *)
| Star (r : re)              (* r*  *)
| StarLazy (r : re)          (* r*? *)
| Plus (r : re)              (* r+  *)
| Group (n : nat) (r : re)   (* (r), the n-th capturing group *)
| NotBehind (c : cls)        (* (?<!c) for a one-character class *)
| NotAhead (r : re).         (* (?!r) *)

(** A compiled pattern: the expression and the MULTILINE flag. *)
Record pattern := { body : re; multiline : bool }.

Definition in_item (a : ascii) (i : item) : bool :=
  match i with
  | One c => Ascii.eqb a c
  | Range lo hi =>
      (N_of_ascii lo <=? N_of_ascii a)%N && (N_of_ascii a <=? N_of_ascii hi)%N
  end.

Definition is_space (a : ascii) : bool :=
  match a with
  | " "%char | "009"%char | "010"%char | "011"%char | "012"%char | "013"%char => true
  | _ => false
  end.

Definition in_cls (c : cls) (a : ascii) : bool :=
  match c with
  | Any => negb (Ascii.eqb a Str.newline)
  | Space => is_space a
  | Set_ l => existsb (in_item a) l
  | NSet l => negb (existsb (in_item a) l)
  end.

(** A position of the matcher in the subject: the character before it
    (none at the start of the string), the text from it on, and the
    groups captured so far, latest first. *)
Record pos := { prev : option ascii; rest : string; caps : list (nat * string) }.

Definition step (a : ascii) (t : string) (s : pos) : pos :=
  {| prev := Some a; rest := t; caps := caps s |}.

Definition capture (n : nat) (from to : pos) : pos :=
  {| prev := prev to; rest := rest to;
     caps := (n, Str.take (String.length (rest from) - String.length (rest to))
                          (rest from)) :: caps to |}.

(** [match.group(n)]. *)
Fixpoint lookup (n : nat) (l : list (nat * string)) : string :=
  match l with
  | [] => EmptyString
  | (i, v) :: l' => if Nat.eqb i n then v else lookup n l'
  end.

Definition group (n : nat) (s : pos) : string := lookup n (caps s).

Definition at_bol (ml : bool) (s : pos) : bool :=
  match prev s with
  | None => true
  | Some c => ml && Ascii.eqb c Str.newline
  end.

Definition at_eol (ml : bool) (s : pos) : bool :=
  match rest s with
  | EmptyString => true
  | String c t =>
      Ascii.eqb c Str.newline && (ml || match t with EmptyString => true | _ => false end)
  end.

(** The literal [l] read at [s]. *)
Fixpoint eat (l : string) (s : pos) : option pos :=
  match l with
  | EmptyString => Some s
  | String c l' =>
      match rest s with
      | String a t => if Ascii.eqb a c then eat l' (step a t s) else None
      | EmptyString => None
      end
  end.

Definition orelse (x : option pos) (y : option pos) : option pos :=
  match x with Some e => Some e | None => y end.

(** Repetition of [body] followed by [k].  A greedy repetition tries one
    more iteration before the continuation, a lazy one the continuation
    first.  Every iteration has to consume a character, so the length of
    the remaining text bounds the number of iterations. *)
Fixpoint iter (fuel : nat) (body : pos -> (pos -> option pos) -> option pos)
         (greedy : bool) (s : pos) (k : pos -> option pos) : option pos :=
  match fuel with
  | 0 => k s
  | S n =>
      let again :=
        body s (fun s' =>
                  if String.length (rest s') <? String.length (rest s)
                  then iter n body greedy s' k else None) in
      if greedy then orelse again (k s) else orelse (k s) again
  end.

(** [m ml r s k]: match [r] at [s], then the continuation [k]; the first
    alternative that lets [k] succeed wins. *)
Fixpoint m (ml : bool) (r : re) {struct r} : pos -> (pos -> option pos) -> option pos :=
  fun s k =>
  match r with
  | Lit l => match eat l s with Some s' => k s' | None => None end
  | Cls c =>
      match rest s with
      | String a t => if in_cls c a then k (step a t s) else None
      | EmptyString => None
      end
  | Bol => if at_bol ml s then k s else None
  | Eol => if at_eol ml s then k s else None
  | Cat r1 r2 => m ml r1 s (fun s' => m ml r2 s' k)
  | Alt r1 r2 => orelse (m ml r1 s k) (m ml r2 s k)
  | Star r' => iter (String.length (rest s)) (m ml r') true s k
  | StarLazy r' => iter (String.length (rest s)) (m ml r') false s k
  | Plus r' =>
      m ml r' s (fun s' => iter (String.length (rest s')) (m ml r') true s' k)
  | Group n r' => m ml r' s (fun s' => k (capture n s s'))
  | NotBehind c =>
      match prev s with
      | Some a => if in_cls c a then None else k s
      | None => k s
      end
  | NotAhead r' =>
      match m ml r' s Some with
      | Some _ => None
      | None => k s
      end
  end.

(** [pattern.match] at a position of the subject whose previous character
    is [pv] and whose remaining text is [s]. *)
Definition match_at (p : pattern) (pv : option ascii) (s : string) : option pos :=
  m (multiline p) (body p) {| prev := pv; rest := s; caps := [] |} Some.

(** [pattern.sub(repl, s)] from a position on: the leftmost match is
    replaced and the scan goes on after it; where nothing matches the
    character is copied.  A match that consumed nothing is replaced and
    the scan moves one character on. *)
Fixpoint sub_from (fuel : nat) (p : pattern) (repl : pos -> string)
         (pv : option ascii) (s : string) : string :=
  match fuel with
  | 0 => s
  | S n =>
      let copy :=
        match s with
        | EmptyString => EmptyString
        | String c t => String c (sub_from n p repl (Some c) t)
        end in
      match match_at p pv s with
      | Some e =>
          if String.length (rest e) <? String.length s
          then repl e +:+ sub_from n p repl (prev e) (rest e)
          else repl e +:+ copy
      | None => copy
      end
  end.

Definition sub (p : pattern) (repl : pos -> string) (s : string) : string :=
  sub_from (S (String.length s)) p repl None s.

End Re.

(** ** The script transformation of [lua_call.py] *)

Import Re.

(** [fmt % args] for a format that holds only [%s] directives. *)
Fixpoint format (fmt : string) (args : list string) : string :=
  match fmt with
  | String "%" (String "s" t) =>
      match args with
      | a :: args' => a +:+ format t args'
      | [] => EmptyString
      end
  | String c t => String c (format t args)
  | EmptyString => EmptyString
  end.

(** [r1r2...rn]. *)
Fixpoint seq (l : list re) : re :=
  match l with
  | [] => Lit ""
  | [r] => r
  | r :: l' => Cat r (seq l')
  end.

Definition CALL_HEADER_text : string := "
local _KEYS, _ARGV;
if #ARGV == 0 or type(ARGV[#ARGV]) == 'string' then
    _KEYS = KEYS;
    _ARGV = ARGV;
else
    _KEYS = ARGV[#ARGV][1];
    _ARGV = ARGV[#ARGV][2];
    table.remove(ARGV);
end;".

Definition CALL_HEADER : string :=
  Str.replace "010" " " (Str.replace "013" "" CALL_HEADER_text).

(** The set of the two quote characters, double and single. *)
Definition quotes : cls := Set_ [One "034"; One "'"].

(** [(?<!Q)((?:KEYS)|(?:ARGV))(?!Q)], where Q is the set of the double
    and the single quote. *)
Definition KEYS_RE : pattern :=
  {| body := seq [NotBehind quotes;
                  Group 1 (Alt (Lit "KEYS") (Lit "ARGV"));
                  NotAhead (Cls quotes)];
     multiline := false |}.

(** [[a-zA-Z_]] and [[a-zA-Z0-9_]]. *)
Definition ident0 : cls := Set_ [Range "a" "z"; Range "A" "Z"; One "_"].
Definition ident : cls := Set_ [Range "a" "z"; Range "A" "Z"; Range "0" "9"; One "_"].

(** One more part of a dotted name: a dot, the first character of an
    identifier, the rest of the identifier. *)
Definition more_name : re :=
  seq [Cls (Set_ [One "."]); Cls ident0; Star (Cls ident)].

(** The dotted name of a call target, spaced out for reading:
    [[a-zA-Z_] [a-zA-Z0-9_]* (?: [.] [a-zA-Z_] [a-zA-Z0-9_]* )* ]. *)
Definition dotted_name : re :=
  seq [Cls ident0; Star (Cls ident); Star more_name].

(** The call pattern after its left part, spaced out:
    [CALL [.] (dotted_name) [(] ([^()]+) [)] \s*? $]. *)
Definition call_tail : re :=
  seq [Lit "CALL"; Cls (Set_ [One "."]);
       Group 2 dotted_name;
       Cls (Set_ [One "("]);
       Group 3 (Plus (Cls (NSet [One "("; One ")"])));
       Cls (Set_ [One ")"]);
       StarLazy (Cls Space);
       Eol].

(** [^(.*?)] followed by [call_tail], compiled with [re.MULTILINE]. *)
Definition CALL_RE : pattern :=
  {| body := seq [Bol; Group 1 (StarLazy (Cls Any)); call_tail];
     multiline := true |}.

Definition PUSH_STACK_CALL_FCN : string :=
  "table.insert(ARGV, {%s});%s_G[redis.call('HGET', ':registry', '%s')]();".

(** The replacement template of the mangler, [r'_\1']. *)
Definition alias (match_ : pos) : string := "_" +:+ group 1 match_.

(** The inner function [fix_calls] of [_fix_calls]. *)
Definition fix_calls (module : string) (match_ : pos) : string :=
  let left := group 1 match_ in
  let full := group 2 match_ in
  let args := group 3 match_ in
  let full :=
    if negb (Str.contains "." full)
    then Str.lstrip "." (module +:+ "." +:+ full)
    else full in
  format PUSH_STACK_CALL_FCN [args; left; full].

Definition _fix_calls (script module : string) : string :=
  let script := sub KEYS_RE alias script in
  let script := sub CALL_RE (fix_calls module) script in
  CALL_HEADER +:+ script.

(** The first two statements of [_fix_calls], named: the mangling of the
    names of the two argument vectors and the rewriting of the calls. *)
Definition mangle (script : string) : string := sub KEYS_RE alias script.
Definition rewrite_calls (module script : string) : string :=
  sub CALL_RE (fix_calls module) script.

(** ** SHA-1

    [hashlib.sha1], which the module imports, after FIPS 180-4: 32-bit
    words are numbers below [2 ^ 32], and every sum is reduced. *)

Module Hashlib.
Local Open Scope N_scope.

Definition mask32 (x : N) : N := x mod 2 ^ 32.
Definition add32 (x y : N) : N := mask32 (x + y).
Definition rotl (n x : N) : N := mask32 (N.lor (N.shiftl x n) (N.shiftr x (32 - n))).
Definition not32 (x : N) : N := N.lxor x (2 ^ 32 - 1).

(** The bytes of [n], most significant first, [k] of them. *)
Fixpoint be_bytes (k : nat) (n : N) : list N :=
  match k with
  | O => []
  | S k' => N.shiftr n (8 * N.of_nat k') mod 256 :: be_bytes k' n
  end.

(** The message, a one bit, zeros up to 56 modulo 64, the length in bits. *)
Definition pad (msg : list N) : list N :=
  let len := N.of_nat (length msg) in
  let zeros := N.to_nat ((55 + 64 - len mod 64) mod 64) in
  msg ++ 128 :: repeat 0 zeros ++ be_bytes 8 (8 * len).

Fixpoint words (fuel : nat) (bs : list N) : list N :=
  match fuel, bs with
  | S f, b0 :: b1 :: b2 :: b3 :: bs' =>
      (N.shiftl b0 24 + N.shiftl b1 16 + N.shiftl b2 8 + b3) :: words f bs'
  | _, _ => []
  end.

(** The message schedule, latest word first. *)
Fixpoint schedule (k : nat) (ws : list N) : list N :=
  match k with
  | O => ws
  | S k' =>
      let w := rotl 1 (N.lxor (N.lxor (nth 2 ws 0) (nth 7 ws 0))
                              (N.lxor (nth 13 ws 0) (nth 15 ws 0))) in
      schedule k' (w :: ws)
  end.

Definition round (i : nat) (st : N * N * N * N * N) (w : N) : N * N * N * N * N :=
  let '(a, b, c, d, e) := st in
  let '(f, k) :=
    if Nat.ltb i 20 then (N.lor (N.land b c) (N.land (not32 b) d), 1518500249)
    else if Nat.ltb i 40 then (N.lxor (N.lxor b c) d, 1859775393)
    else if Nat.ltb i 60 then
      (N.lor (N.lor (N.land b c) (N.land b d)) (N.land c d), 2400959708)
    else (N.lxor (N.lxor b c) d, 3395469782) in
  (add32 (add32 (add32 (add32 (rotl 5 a) f) e) k) w, a, rotl 30 b, c, d).

Fixpoint rounds (i : nat) (ws : list N) (st : N * N * N * N * N) : N * N * N * N * N :=
  match ws with
  | [] => st
  | w :: ws' => rounds (S i) ws' (round i st w)
  end.

Definition block (h : N * N * N * N * N) (bs : list N) : N * N * N * N * N :=
  let ws := rev (schedule 64 (rev (words 16 bs))) in
  let '(h0, h1, h2, h3, h4) := h in
  let '(a, b, c, d, e) := rounds 0 ws h in
  (add32 h0 a, add32 h1 b, add32 h2 c, add32 h3 d, add32 h4 e).

Fixpoint blocks (n : nat) (h : N * N * N * N * N) (bs : list N) : N * N * N * N * N :=
  match n with
  | O => h
  | S n' => blocks n' (block h (firstn 64 bs)) (skipn 64 bs)
  end.

Definition hex_digit (n : N) : ascii :=
  ascii_of_N (if n <? 10 then 48 + n else 87 + n).

Fixpoint hex (k : nat) (n : N) : string :=
  match k with
  | O => EmptyString
  | S k' => String (hex_digit (N.shiftr n (4 * N.of_nat k') mod 16)) (hex k' n)
  end.

(** [hashlib.sha1(s).hexdigest()]. *)
Definition sha1_hexdigest (s : string) : string :=
  let bs := pad (map N_of_ascii (list_ascii_of_string s)) in
  let '(h0, h1, h2, h3, h4) :=
    blocks (Nat.div (length bs) 64)
      (1732584193, 4023233417, 2562383102, 271733878, 3285377520) bs in
  hex 8 h0 +:+ hex 8 h1 +:+ hex 8 h2 +:+ hex 8 h3 +:+ hex 8 h4.

End Hashlib.

(** ** The registry, the connection and the callers *)

(** The commands that the module sends to the server. *)
Inductive command :=
| SCRIPT_LOAD (script : string)
| HSET (key field value : string)
| EVALSHA (sha : string) (numkeys : nat) (args : list string).

(** What reaches the server: the queue of a pipeline when it is executed,
    with the transaction flag the pipeline was made with, or one command. *)
Inductive request :=
| Pipeline (transaction : bool) (queue : list command)
| Command (c : command).

(** A connection is the [dummy] object, which takes every call and does
    nothing, or a client of a server. *)
Inductive conn := dummy | Redis.

(** The state that the module reads and writes: its global [REGISTRY],
    from qualified names to pairs of an identity and a transformed text,
    and the requests that reached the server so far. *)
Record world := {
  REGISTRY : gmap string (string * string);
  sent : list request
}.

Definition send (c : conn) (r : request) (w : world) : world :=
  match c with
  | dummy => w
  | Redis => {| REGISTRY := REGISTRY w; sent := sent w ++ [r] |}
  end.

(** The loop of [load_scripts] over [REGISTRY.iteritems()]: the queue of the
    pipeline and the counter [added]. *)
Definition load_step (prefix : string) (acc : list command * nat)
           (item : string * (string * string)) : list command * nat :=
  let '(pipe, added) := acc in
  let '(full, (hash, fixed)) := item in
  if Str.startswith full prefix
  then (pipe ++ [SCRIPT_LOAD fixed; HSET ":registry" full hash], S added)
  else (pipe, added).

Definition load_scripts (c : conn) (prefix : string) (w : world) : nat * world :=
  let prefix := if String.eqb prefix "__main__" then "" else prefix in
  let prefix := if Str.truthy prefix then Str.rstrip "." prefix +:+ "." else "" in
  let '(pipe, added) :=
    fold_left (load_step prefix) (map_to_list (REGISTRY w)) ([], 0) in
  (added, send c (Pipeline true pipe) w).

(** The function that [_caller] returns. *)
Definition _caller (hash : string) (c : conn) (keys argv : list string) (w : world)
  : world :=
  send c (Command (EVALSHA hash (length keys) (keys ++ argv))) w.

(** The globals of the module that registers a script, which the code
    reaches through [sys._getframe(1).f_globals]: its name and the callers
    bound in it so far. *)
Record globals := {
  __name__ : string;
  vars : gmap string (conn -> list string -> list string -> world -> world)
}.

Inductive exn := ValueError (msg : string).

Inductive result (A : Type) :=
| Ok (a : A)
| Raise (e : exn).
Arguments Ok {A} a.
Arguments Raise {A} e.

(** The inner function [call] of [_register]. *)
Definition call (name script : string) (c : conn) (gl : globals) (w : world)
  : (conn -> list string -> list string -> world -> world) * globals * world :=
  let module := __name__ gl in
  let module := if String.eqb module "__main__" then "" else module in
  let full := Str.lstrip "." (module +:+ "." +:+ name) in
  let fixed := _fix_calls script module in
  let hash := Hashlib.sha1_hexdigest fixed in
  let w := send c (Pipeline true [SCRIPT_LOAD fixed;
                                  HSET ":registry" full ("f_" +:+ hash)]) w in
  let w := {| REGISTRY := <[full := ("f_" +:+ hash, fixed)]> (REGISTRY w);
              sent := sent w |} in
  let f := _caller hash in
  (f, {| __name__ := __name__ gl; vars := <[name := f]> (vars gl) |}, w).

Definition _register (name : string)
  : result (string -> conn -> globals -> world ->
            (conn -> list string -> list string -> world -> world) * globals * world) :=
  if Str.contains "." name
  then Raise (ValueError "Cannot define a function name with an included period")
  else Ok (call name).

(** ** Characterisations used in the proofs *)

(** A quote character next to a position. *)
Definition quoted (o : option ascii) : bool :=
  match o with Some a => in_cls quotes a | None => false end.

(** The text starts with one of the two names. *)
Definition name_at (s : string) : bool :=
  Str.startswith s "KEYS" || Str.startswith s "ARGV".

(** Where [KEYS_RE] matches: at a name with no quote right before it and
    none right after it. *)
Definition hit (pv : option ascii) (s : string) : bool :=
  negb (quoted pv) && name_at s && negb (quoted (String.get 4 s)).

(** A character that is neither a quote nor a letter of the two names:
    the mangler treats what stands before it and what stands after it
    apart. *)
Definition apart (c : ascii) : bool :=
  negb (in_cls quotes c) && negb (Str.contains c "KEYSARGV").

(** [n] occurs in [s]. *)
Fixpoint occurs (n s : string) : bool :=
  Str.startswith s n
  || match s with
     | EmptyString => false
     | String _ t => occurs n t
     end.

(** The mangler as a scan that looks at one position after the other. *)
Fixpoint mangle_ref (pv : option ascii) (s : string) : string :=
  match s with
  | EmptyString => EmptyString
  | String c t =>
      (if hit pv s then "_" else "") +:+ String c (mangle_ref (Some c) t)
  end.

(** The position after the longest run of characters of the class [c];
    [r] is the text from [s] on. *)
Fixpoint span (c : cls) (r : string) (s : pos) {struct r} : pos :=
  match r with
  | String a t => if in_cls c a then span c t (step a t s) else s
  | EmptyString => s
  end.

(** The position after the longest dotted name, its first character
    read: identifier characters, and dots that an identifier follows. *)
Fixpoint name_end (r : string) (s : pos) {struct r} : pos :=
  match r with
  | String a t =>
      if in_cls ident a then name_end t (step a t s)
      else if in_cls (Set_ [One "."]) a then
        match t with
        | String d _ => if in_cls ident0 d then name_end t (step a t s) else s
        | EmptyString => s
        end
      else s
  | EmptyString => s
  end.

(** The end of the line after blanks, if nothing else stands before it. *)
Fixpoint line_end (r : string) (s : pos) {struct r} : option pos :=
  match r with
  | EmptyString => Some s
  | String a t =>
      if Ascii.eqb a Str.newline then Some s
      else if in_cls Space a then line_end t (step a t s)
      else None
  end.

(** The first position, from [s] on through characters of the class [c],
    where [k] succeeds. *)
Fixpoint find (c : cls) (k : pos -> option pos) (r : string) (s : pos) {struct r}
  : option pos :=
  match k s with
  | Some e => Some e
  | None =>
      match r with
      | String a t => if in_cls c a then find c k t (step a t s) else None
      | EmptyString => None
      end
  end.

(** A continuation that fails wherever the next character satisfies [P]. *)
Definition rejects (P : ascii -> bool) (k : pos -> option pos) : Prop :=
  forall s b t, rest s = String b t -> P b = true -> k s = None.

(** A call read at [s]: the marker, the dotted name, the parenthesised
    arguments, blanks, the end of the line. *)
Definition call_at (s : pos) : option pos :=
  match eat "CALL." s with
  | None => None
  | Some s1 =>
      match rest s1 with
      | String a t =>
          if in_cls ident0 a then
            match eat "(" (capture 2 s1 (name_end t (step a t s1))) with
            | None => None
            | Some s3 =>
                match rest s3 with
                | String b u =>
                    if in_cls (NSet [One "("; One ")"]) b then
                      match eat ")" (capture 3 s3
                                       (span (NSet [One "("; One ")"]) u (step b u s3))) with
                      | None => None
                      | Some s5 => line_end (rest s5) s5
                      end
                    else None
                | EmptyString => None
                end
            end
          else None
      | EmptyString => None
      end
  end.

(** The same readings on plain text.  [run c r] splits [r] after its
    longest start made of characters of the class [c]. *)
Fixpoint run (c : cls) (r : string) : string * string :=
  match r with
  | String a t =>
      if in_cls c a then let (u, v) := run c t in (String a u, v)
      else (EmptyString, r)
  | EmptyString => (EmptyString, EmptyString)
  end.

(** A dotted name without its first character, and what follows it. *)
Fixpoint name_run (r : string) : string * string :=
  match r with
  | String a t =>
      if in_cls ident a then let (u, v) := name_run t in (String a u, v)
      else if in_cls (Set_ [One "."]) a then
        match t with
        | String d _ =>
            if in_cls ident0 d then let (u, v) := name_run t in (String a u, v)
            else (EmptyString, r)
        | EmptyString => (EmptyString, r)
        end
      else (EmptyString, r)
  | EmptyString => (EmptyString, EmptyString)
  end.

(** Blanks up to the end of the line, and the text from the end of the
    line on. *)
Fixpoint blanks_run (r : string) : option (string * string) :=
  match r with
  | EmptyString => Some (EmptyString, EmptyString)
  | String a t =>
      if Ascii.eqb a Str.newline then Some (EmptyString, r)
      else if in_cls Space a then
        match blanks_run t with
        | Some (u, v) => Some (String a u, v)
        | None => None
        end
      else None
  end.

(** A call at the start of [r]: its name, its arguments, the blanks
    after it, and the text after those. *)
Definition call_here (r : string) : option (string * string * string * string) :=
  match Str.strip "CALL." r with
  | Some (String a t) =>
      if in_cls ident0 a then
        let (f, r1) := name_run t in
        match Str.strip "(" r1 with
        | Some (String b u) =>
            if in_cls (NSet [One "("; One ")"]) b then
              let (g, r2) := run (NSet [One "("; One ")"]) u in
              match Str.strip ")" r2 with
              | Some r3 =>
                  match blanks_run r3 with
                  | Some (w, r4) => Some (String a f, String b g, w, r4)
                  | None => None
                  end
              | None => None
              end
            else None
        | _ => None
        end
      else None
  | _ => None
  end.

(** The first call of the line that [r] starts with: the text to its
    left, then as [call_here]. *)
Fixpoint call_split (r : string)
  : option (string * string * string * string * string) :=
  match call_here r with
  | Some (f, g, w, r4) => Some (EmptyString, f, g, w, r4)
  | None =>
      match r with
      | String a t =>
          if in_cls Any a then
            match call_split t with
            | Some (l, f, g, w, r4) => Some (String a l, f, g, w, r4)
            | None => None
            end
          else None
      | EmptyString => None
      end
  end.

(** The match of [CALL_RE] that a call found by [call_split] stands for. *)
Definition call_pos (x : string * string * string * string * string) : pos :=
  let '(l, f, g, w, r4) := x in
  {| prev := Str.last (Some ")"%char) w; rest := r4;
     caps := [(3, g); (2, f); (1, l)] |}.

(** ** Shapes of text, for the statements *)

(** Every character of [s] is in the class [c]. *)
Fixpoint all_in (c : cls) (s : string) : bool :=
  match s with
  | EmptyString => true
  | String a t => in_cls c a && all_in c t
  end.

(** A dotted name: identifiers joined by single dots. *)
Fixpoint name_tail (t : string) : bool :=
  match t with
  | EmptyString => true
  | String a t' =>
      if in_cls ident a then name_tail t'
      else Ascii.eqb a "."
           && match t' with String d _ => in_cls ident0 d | EmptyString => false end
           && name_tail t'
  end.

Definition dotted (f : string) : bool :=
  match f with
  | String a t => in_cls ident0 a && name_tail t
  | EmptyString => false
  end.

(** Argument text: not empty, and no parenthesis in it. *)
Definition arguments (g : string) : bool :=
  Str.truthy g && negb (Str.contains "(" g) && negb (Str.contains ")" g).

(** Blanks of a line: white space other than the newline. *)
Definition blank (w : string) : bool :=
  all_in Space w && negb (Str.contains Str.newline w).

Definition no_newline (l : string) : bool := negb (Str.contains Str.newline l).

(** [s] is empty or ends with a newline: what follows starts a line. *)
Definition line_start (s : string) : bool :=
  match Str.last None s with
  | None => true
  | Some c => Ascii.eqb c Str.newline
  end.

(** [s] is empty or starts with a newline: what precedes ends a line. *)
Definition line_stop (s : string) : bool :=
  match s with
  | EmptyString => true
  | String c _ => Ascii.eqb c Str.newline
  end.

(** The rest of the call pattern, [call_tail], matches at the start of [t]. *)
Definition reads_call (t : string) : bool :=
  match m true call_tail {| prev := None; rest := t; caps := [] |} Some with
  | Some _ => true
  | None => false
  end.

(** The lazy left part [(.*?)] of [CALL_RE] stops at the first position
    where the rest of the pattern matches: [l] is the left part of the
    match when the rest matches at no position inside [l]. *)
Fixpoint leftmost (l r : string) : bool :=
  match l with
  | EmptyString => true
  | String _ l' => negb (reads_call (l +:+ r)) && leftmost l' r
  end.

(** What [CALL_RE] needs after the arguments of a call, read at [y]: the
    arguments run on to the first parenthesis of [y], which has to be a
    closing one with only blanks up to the end of its line. *)
Definition close_at (y : string) : option (string * string) :=
  match Str.strip ")" (snd (run (NSet [One "("; One ")"]) y)) with
  | Some r3 => blanks_run r3
  | None => None
  end.

(** A position at the start of a line, by the character before it. *)
Definition bol (pv : option ascii) : bool :=
  match pv with None => true | Some c => Ascii.eqb c Str.newline end.

(** The rewriting of the calls from a position on. *)
Definition rewrite_from (module : string) (pv : option ascii) (s : string) : string :=
  sub_from (S (String.length s)) CALL_RE (fix_calls module) pv s.

(** The prefix that [load_scripts] tests the names against: its first two
    statements. *)
Definition publish_prefix (prefix : string) : string :=
  let prefix := if String.eqb prefix "__main__" then "" else prefix in
  if Str.truthy prefix then Str.rstrip "." prefix +:+ "." else "".

(** The two commands that [load_scripts] queues for an entry. *)
Definition commands_of (item : string * (string * string)) : list command :=
  let '(full, (hash, fixed)) := item in
  [SCRIPT_LOAD fixed; HSET ":registry" full hash].

(** The entries that [load_scripts] takes, in the order of the loop. *)
Definition chosen (p : string) (l : list (string * (string * string)))
  : list (string * (string * string)) :=
  List.filter (fun item => Str.startswith (fst item) p) l.

(** ** More shapes, for the further properties *)

(** [s.count(c)] for a one-character [c]. *)
Fixpoint count (c : ascii) (s : string) : nat :=
  match s with
  | EmptyString => 0
  | String a t => (if Ascii.eqb a c then 1 else 0) + count c t
  end.

(** The module that a registration from the globals [gl] is made for: the
    first three statements of the inner function [call] of [_register]. *)
Definition module_of (gl : globals) : string :=
  if String.eqb (__name__ gl) "__main__" then "" else __name__ gl.

(** At every position of [s], with [pv] before it, [KEYS_RE] does not
    match or an underscore stands right before the position. *)
Fixpoint aliased (pv : option ascii) (s : string) : bool :=
  match s with
  | EmptyString => true
  | String c t =>
      match match_at KEYS_RE pv s with
      | None => true
      | Some _ => match pv with Some a => Ascii.eqb a "_" | None => false end
      end
      && aliased (Some c) t
  end.

(** The character before a position is an underscore. *)
Definition underscore (pv : option ascii) : bool :=
  match pv with Some a => Ascii.eqb a "_" | None => false end.

(** Only blanks stand between the start of [s] and the end of its line. *)
Definition ends_line (s : string) : bool :=
  match blanks_run s with Some _ => true | None => false end.

(** Some line of [s] ends with a closing parenthesis and then blanks only. *)
Fixpoint closes_line (s : string) : bool :=
  match s with
  | EmptyString => false
  | String a t => Ascii.eqb a ")" && ends_line t || closes_line t
  end.

(** * Properties *)

(** ** Strings *)

Module StrFacts.
Import Str.

Lemma app_nil_r s : s +:+ "" = s.
Proof. induction s as [|a s IH]; simpl; [reflexivity | now rewrite IH]. Qed.

Lemma app_assoc s t u : (s +:+ t) +:+ u = s +:+ t +:+ u.
Proof. induction s as [|a s IH]; simpl; [reflexivity | now rewrite IH]. Qed.

Lemma length_app s t : String.length (s +:+ t) = String.length s + String.length t.
Proof. induction s as [|a s IH]; simpl; [reflexivity | now rewrite IH]. Qed.

Lemma strip_app p t : strip p (p +:+ t) = Some t.
Proof.
  induction p as [|b p IH]; simpl; [reflexivity|].
  now rewrite Ascii.eqb_refl.
Qed.

Lemma strip_Some p s t : strip p s = Some t -> s = p +:+ t.
Proof.
  revert s; induction p as [|b p IH]; intros s; simpl.
  - now intros [= ->].
  - destruct s as [|a s]; [discriminate|].
    destruct (Ascii.eqb_spec a b) as [->|]; [|discriminate].
    intros H; now rewrite (IH _ H).
Qed.

Lemma take_app_diff p t :
  take (String.length (p +:+ t) - String.length t) (p +:+ t) = p.
Proof.
  rewrite length_app.
  replace (String.length p + String.length t - String.length t)
    with (String.length p) by lia.
  induction p as [|a p IH]; simpl.
  - now destruct t.
  - now rewrite IH.
Qed.

Lemma last_app d s t : last d (s +:+ t) = last (last d s) t.
Proof. revert d; induction s as [|a s IH]; intros d; simpl; [reflexivity | apply IH]. Qed.

Lemma last_split d s c : last d s = Some c -> s = EmptyString \/ exists w0, s = w0 +:+ String c "".
Proof.
  revert d; induction s as [|a t IH]; intros d H; [now left|right].
  cbn [last] in H. destruct (IH _ H) as [-> | [w0 ->]].
  - cbn [last] in H. injection H as ->. now exists "".
  - now exists (String a w0).
Qed.

Lemma last_none_empty a s : last None (String a s) = None -> False.
Proof.
  cbn [last]. generalize a. induction s as [|b t IH]; intros c; [discriminate|].
  cbn [last]. apply IH.
Qed.

End StrFacts.

(** ** The matcher *)

Module ReFacts.
Import Str StrFacts.

Lemma eat_strip l s :
  eat l s =
  match strip l (rest s) with
  | Some t => Some {| prev := last (prev s) l; rest := t; caps := caps s |}
  | None => None
  end.
Proof.
  revert s; induction l as [|c l IH]; intros [pv r cs]; simpl; [reflexivity|].
  destruct r as [|a r]; [reflexivity|].
  destruct (Ascii.eqb_spec a c) as [->|]; [|reflexivity].
  rewrite IH; reflexivity.
Qed.

Local Arguments in_cls : simpl never.
Local Arguments capture : simpl never.

(** The equations of the matcher, one for each construct. *)
Lemma m_Lit ml l s k :
  m ml (Lit l) s k = match eat l s with Some s' => k s' | None => None end.
Proof. reflexivity. Qed.

Lemma m_Cls ml c s k :
  m ml (Cls c) s k =
  match rest s with
  | String a t => if in_cls c a then k (step a t s) else None
  | EmptyString => None
  end.
Proof. reflexivity. Qed.

Lemma m_Bol ml s k : m ml Bol s k = if at_bol ml s then k s else None.
Proof. reflexivity. Qed.

Lemma m_Eol ml s k : m ml Eol s k = if at_eol ml s then k s else None.
Proof. reflexivity. Qed.

Lemma m_Cat ml r1 r2 s k : m ml (Cat r1 r2) s k = m ml r1 s (fun s' => m ml r2 s' k).
Proof. reflexivity. Qed.

Lemma m_Star ml r s k :
  m ml (Star r) s k = iter (String.length (rest s)) (m ml r) true s k.
Proof. reflexivity. Qed.

Lemma m_StarLazy ml r s k :
  m ml (StarLazy r) s k = iter (String.length (rest s)) (m ml r) false s k.
Proof. reflexivity. Qed.

Lemma m_Plus ml r s k :
  m ml (Plus r) s k =
  m ml r s (fun s' => iter (String.length (rest s')) (m ml r) true s' k).
Proof. reflexivity. Qed.

Lemma m_Group ml n r s k :
  m ml (Group n r) s k = m ml r s (fun s' => k (capture n s s')).
Proof. reflexivity. Qed.

Lemma iter_S n body greedy s k :
  iter (S n) body greedy s k =
  let again :=
    body s (fun s' =>
              if String.length (rest s') <? String.length (rest s)
              then iter n body greedy s' k else None) in
  if greedy then orelse again (k s) else orelse (k s) again.
Proof. reflexivity. Qed.

Lemma orelse_None x : orelse x None = x.
Proof. now destruct x. Qed.

(** *** The bound on the iterations is never what stops a repetition *)

Lemma iter_ext body greedy :
  (forall s k1 k2, (forall s', k1 s' = k2 s') -> body s k1 = body s k2) ->
  forall n s k1 k2, (forall s', k1 s' = k2 s') ->
  iter n body greedy s k1 = iter n body greedy s k2.
Proof.
  intros Hbody; induction n as [|n IH]; intros s k1 k2 Hk; [apply Hk|].
  rewrite !iter_S; cbv zeta. rewrite (Hk s).
  rewrite (Hbody s _ (fun s' =>
             if String.length (rest s') <? String.length (rest s)
             then iter n body greedy s' k2 else None)); [reflexivity|].
  intros s'. destruct (_ <? _); [now apply IH | reflexivity].
Qed.

Lemma m_ext ml r :
  forall s k1 k2, (forall s', k1 s' = k2 s') -> m ml r s k1 = m ml r s k2.
Proof.
  induction r as [l|c| | |r1 IH1 r2 IH2|r1 IH1 r2 IH2|r IH|r IH|r IH|n r IH|c|r IH];
    intros s k1 k2 Hk.
  - rewrite !m_Lit. destruct (eat l s); [apply Hk | reflexivity].
  - rewrite !m_Cls. destruct (rest s); [reflexivity|].
    destruct (in_cls c _); [apply Hk | reflexivity].
  - rewrite !m_Bol, Hk. reflexivity.
  - rewrite !m_Eol, Hk. reflexivity.
  - rewrite !m_Cat. apply IH1. intros s'. now apply IH2.
  - cbn [m]. now rewrite (IH1 s k1 k2 Hk), (IH2 s k1 k2 Hk).
  - rewrite !m_Star. now apply iter_ext.
  - rewrite !m_StarLazy. now apply iter_ext.
  - rewrite !m_Plus. apply IH. intros s'. now apply iter_ext.
  - rewrite !m_Group. apply IH. intros s'. apply Hk.
  - cbn [m]. destruct (prev s); [destruct (in_cls c _)|]; auto.
  - cbn [m]. destruct (m ml r s Some); auto.
Qed.

Lemma iter_none body greedy :
  (forall s k1 k2, (forall s', k1 s' = k2 s') -> body s k1 = body s k2) ->
  (forall s, body s (fun _ => None) = None) ->
  forall n s, iter n body greedy s (fun _ => None) = None.
Proof.
  intros Hext Hnone; induction n as [|n IH]; intros s; [reflexivity|].
  rewrite iter_S; cbv zeta.
  rewrite (Hext s _ (fun _ => None)), Hnone; [now destruct greedy|].
  intros s'. destruct (_ <? _); [apply IH | reflexivity].
Qed.

(** A match comes from the continuation only. *)
Lemma m_none ml r : forall s, m ml r s (fun _ => None) = None.
Proof.
  induction r as [l|c| | |r1 IH1 r2 IH2|r1 IH1 r2 IH2|r IH|r IH|r IH|n r IH|c|r IH];
    intros s.
  - rewrite m_Lit. now destruct (eat l s).
  - rewrite m_Cls. destruct (rest s); [reflexivity|]. now destruct (in_cls c _).
  - rewrite m_Bol. now destruct (at_bol ml s).
  - rewrite m_Eol. now destruct (at_eol ml s).
  - rewrite m_Cat, (m_ext ml r1 s _ (fun _ => None)); [apply IH1 | apply IH2].
  - cbn [m]. now rewrite IH1, IH2.
  - rewrite m_Star. apply iter_none; [apply m_ext | apply IH].
  - rewrite m_StarLazy. apply iter_none; [apply m_ext | apply IH].
  - rewrite m_Plus, (m_ext ml r s _ (fun _ => None)); [apply IH|].
    intros s'. apply iter_none; [apply m_ext | apply IH].
  - rewrite m_Group. apply IH.
  - cbn [m]. destruct (prev s); [destruct (in_cls c _)|]; reflexivity.
  - cbn [m]. now destruct (m ml r s Some).
Qed.

(** Any bound from the length of the remaining text on gives the same
    repetition: an iteration has to consume a character. *)
Lemma iter_fuel ml r greedy k n1 n2 s :
  String.length (rest s) <= n1 -> String.length (rest s) <= n2 ->
  iter n1 (m ml r) greedy s k = iter n2 (m ml r) greedy s k.
Proof.
  revert n2 s; induction n1 as [|n1 IH]; intros n2 s H1 H2.
  - destruct n2 as [|n2]; [reflexivity|]. rewrite iter_S; cbv zeta.
    rewrite (m_ext ml r s _ (fun _ => None)), m_none;
      [cbn [iter]; now destruct greedy, (k s)|].
    intros s'. destruct (_ <? _) eqn:Hlt; [|reflexivity].
    apply Nat.ltb_lt in Hlt. lia.
  - destruct n2 as [|n2].
    + rewrite iter_S; cbv zeta.
      rewrite (m_ext ml r s _ (fun _ => None)), m_none;
      [cbn [iter]; now destruct greedy, (k s)|].
      intros s'. destruct (_ <? _) eqn:Hlt; [|reflexivity].
      apply Nat.ltb_lt in Hlt. lia.
    + rewrite !iter_S; cbv zeta.
      rewrite (m_ext ml r s _ (fun s' =>
                 if String.length (rest s') <? String.length (rest s)
                 then iter n2 (m ml r) greedy s' k else None)); [reflexivity|].
      intros s'. destruct (_ <? _) eqn:Hlt; [|reflexivity].
      apply Nat.ltb_lt in Hlt. apply IH; lia.
Qed.

(** A greedy run over a class, followed by a continuation that rejects
    the characters of the class: only the longest run can do. *)
Lemma iter_cls_greedy ml c k fuel s :
  rejects (in_cls c) k ->
  String.length (rest s) <= fuel ->
  iter fuel (m ml (Cls c)) true s k = k (span c (rest s) s).
Proof.
  intros Hk; revert s; induction fuel as [|n IH]; intros s Hlen.
  - destruct (rest s) eqn:Hr; [reflexivity | simpl in Hlen; lia].
  - rewrite iter_S, m_Cls; cbv zeta.
    destruct (rest s) as [|a t] eqn:Hr; [reflexivity|].
    cbn [span]. destruct (in_cls c a) eqn:Ha; [|reflexivity].
    cbn [step rest String.length].
    replace (String.length t <? S (String.length t)) with true
      by (symmetry; apply Nat.ltb_lt; lia).
    rewrite (Hk s a t Hr Ha), orelse_None.
    rewrite IH by (cbn [step rest]; simpl in Hlen; lia).
    reflexivity.
Qed.

(** A lazy run over a class: the continuation is tried at every position
    of the run, the nearest first. *)
Lemma iter_cls_lazy ml c k fuel s :
  String.length (rest s) <= fuel ->
  iter fuel (m ml (Cls c)) false s k = find c k (rest s) s.
Proof.
  revert s; induction fuel as [|n IH]; intros s Hlen.
  - destruct (rest s) eqn:Hr; [|simpl in Hlen; lia].
    simpl. now destruct (k s).
  - rewrite iter_S, m_Cls; cbv zeta.
    destruct (rest s) as [|a t] eqn:Hr; cbn [find].
    + now destruct (k s).
    + destruct (k s); [reflexivity|]. cbn [orelse].
      destruct (in_cls c a); [|reflexivity].
      cbn [step rest String.length].
      replace (String.length t <? S (String.length t)) with true
        by (symmetry; apply Nat.ltb_lt; lia).
      rewrite IH by (cbn [step rest]; simpl in Hlen; lia).
      reflexivity.
Qed.

Lemma line_end_find r s :
  rest s = r ->
  find Space (fun s' => if at_eol true s' then Some s' else None) r s = line_end r s.
Proof.
  revert s; induction r as [|a t IH]; intros s Hr;
    cbn [find line_end]; unfold at_eol; rewrite Hr; [reflexivity|].
  destruct (Ascii.eqb a newline); [reflexivity|]. cbn [andb].
  destruct (in_cls Space a); [now apply IH | reflexivity].
Qed.

(** *** Characters *)

Ltac by_cases_on_char :=
  intros [[] [] [] [] [] [] [] []]; vm_compute; congruence.

Lemma ident0_ident a : in_cls ident0 a = true -> in_cls ident a = true.
Proof. revert a; by_cases_on_char. Qed.

Lemma ident_not_dot a : in_cls ident a = true -> in_cls (Set_ [One "."]) a = false.
Proof. revert a; by_cases_on_char. Qed.

Lemma ident_not_open a : in_cls ident a = true -> in_cls (Set_ [One "("]) a = false.
Proof. revert a; by_cases_on_char. Qed.

Lemma dot_not_open a :
  in_cls (Set_ [One "."]) a = true -> in_cls (Set_ [One "("]) a = false.
Proof. revert a; by_cases_on_char. Qed.

Lemma in_one c a : in_cls (Set_ [One c]) a = Ascii.eqb a c.
Proof. unfold in_cls; simpl. now rewrite orb_false_r. Qed.

(** *** The dotted name *)

Lemma length_rest_span c r s :
  rest s = r -> String.length (rest (span c r s)) <= String.length r.
Proof.
  revert s; induction r as [|a t IH]; intros s Hr; cbn [span].
  - now rewrite Hr.
  - destruct (in_cls c a).
    + specialize (IH (step a t s) eq_refl). simpl. lia.
    + now rewrite Hr.
Qed.

Lemma head_span c r s b u :
  rest s = r -> rest (span c r s) = String b u -> in_cls c b = false.
Proof.
  revert s; induction r as [|a t IH]; intros s Hr; cbn [span].
  - rewrite Hr; discriminate.
  - destruct (in_cls c a) eqn:Ha.
    + now apply IH.
    + rewrite Hr; now intros [= <- <-].
Qed.

Lemma name_end_span r s :
  rest s = r ->
  name_end (rest (span ident r s)) (span ident r s) = name_end r s.
Proof.
  revert s; induction r as [|a t IH]; intros s Hr; cbn [span].
  - now rewrite Hr.
  - cbn [name_end]. destruct (in_cls ident a) eqn:Ha.
    + now apply IH.
    + rewrite Hr. cbn [name_end]. now rewrite Ha.
Qed.

Lemma iter_more_name_ident ml k fuel s a t :
  rejects (fun b => negb (in_cls (Set_ [One "("]) b)) k ->
  rest s = String a t -> in_cls ident a = true ->
  iter fuel (m ml more_name) true s k = None.
Proof.
  intros Hk Hr Ha.
  assert (Hks : k s = None).
  { apply (Hk s a t Hr). now rewrite ident_not_open. }
  destruct fuel as [|n]; [exact Hks|].
  rewrite iter_S; cbv zeta. unfold more_name at 1; cbn [seq].
  rewrite m_Cat, m_Cls, Hr, (ident_not_dot _ Ha), Hks. reflexivity.
Qed.

Lemma iter_more_name ml k fuel s :
  rejects (fun b => negb (in_cls (Set_ [One "("]) b)) k ->
  String.length (rest s) <= fuel ->
  (forall a t, rest s = String a t -> in_cls ident a = false) ->
  iter fuel (m ml more_name) true s k = k (name_end (rest s) s).
Proof.
  intros Hk; revert s; induction fuel as [|n IH]; intros s Hlen Hhead.
  - destruct (rest s) eqn:Hr; [reflexivity | simpl in Hlen; lia].
  - rewrite iter_S; cbv zeta. unfold more_name at 1; cbn [seq].
    match goal with |- orelse (m _ _ _ ?K) _ = _ => set (K' := K) end.
    rewrite m_Cat, m_Cls.
    destruct (rest s) as [|a t] eqn:Hr; [reflexivity|].
    cbn [name_end]. rewrite (Hhead a t eq_refl).
    destruct (in_cls (Set_ [One "."]) a) eqn:Hdot; [|reflexivity].
    rewrite m_Cat, m_Cls. cbn [step rest].
    destruct t as [|d t']; [reflexivity|].
    destruct (in_cls ident0 d) eqn:Hd; [|reflexivity].
    assert (Hks : k s = None).
    { apply (Hk s a (String d t') Hr). now rewrite (dot_not_open _ Hdot). }
    rewrite Hks, orelse_None.
    set (s3 := step d t' _).
    rewrite m_Star, iter_cls_greedy; [| |reflexivity].
    + change (rest s3) with t'.
      pose proof (length_rest_span ident t' s3 eq_refl) as Hle.
      unfold K'.
      replace (String.length (rest (span ident t' s3)) <?
               String.length (String a (String d t')))
        with true by (symmetry; apply Nat.ltb_lt; simpl; lia).
      rewrite IH.
      * rewrite (name_end_span t' s3 eq_refl).
        cbn [name_end]. now rewrite (ident0_ident _ Hd).
      * simpl in Hlen; lia.
      * intros b u Hb. exact (head_span ident t' s3 b u eq_refl Hb).
    + intros s' b u Hs' Hb. unfold K'.
      destruct (_ <? _); [|reflexivity].
      now apply (iter_more_name_ident ml k n s' b u).
Qed.

Lemma dotted_name_match ml k s :
  rejects (fun b => negb (in_cls (Set_ [One "("]) b)) k ->
  m ml dotted_name s k =
  match rest s with
  | String a t => if in_cls ident0 a then k (name_end t (step a t s)) else None
  | EmptyString => None
  end.
Proof.
  intros Hk. unfold dotted_name; cbn [seq].
  rewrite m_Cat, m_Cls.
  destruct (rest s) as [|a t] eqn:Hr; [reflexivity|].
  destruct (in_cls ident0 a); [|reflexivity].
  set (s1 := step a t s).
  rewrite m_Cat, m_Star, iter_cls_greedy; [| |reflexivity].
  - change (rest s1) with t.
    rewrite m_Star, iter_more_name; [| assumption | reflexivity |].
    + now rewrite (name_end_span t s1 eq_refl).
    + intros b u Hb. exact (head_span ident t s1 b u eq_refl Hb).
  - intros s' b u Hs' Hb. rewrite m_Star.
    now apply (iter_more_name_ident ml k _ s' b u).
Qed.

(** *** The call pattern *)

Lemma m_one ml c s k :
  m ml (Cls (Set_ [One c])) s k =
  match eat (String c "") s with Some s' => k s' | None => None end.
Proof.
  rewrite m_Cls; cbn [eat]. destruct (rest s) as [|a t]; [reflexivity|].
  rewrite in_one. now destruct (Ascii.eqb a c).
Qed.

Lemma eat_app l1 l2 s :
  eat (l1 +:+ l2) s = match eat l1 s with Some s' => eat l2 s' | None => None end.
Proof.
  revert s; induction l1 as [|c l1 IH]; intros s; [reflexivity|].
  cbn [String.append eat]. destruct (rest s) as [|a t]; [reflexivity|].
  destruct (Ascii.eqb a c); [apply IH | reflexivity].
Qed.

Lemma find_ext c k1 k2 r s :
  (forall s', k1 s' = k2 s') -> find c k1 r s = find c k2 r s.
Proof.
  intros Hk; revert s; induction r as [|a t IH]; intros s; cbn [find]; rewrite Hk.
  - reflexivity.
  - destruct (k2 s); [reflexivity|]. destruct (in_cls c a); [apply IH | reflexivity].
Qed.

Lemma not_paren_not_close a :
  in_cls (NSet [One "("; One ")"]) a = true -> in_cls (Set_ [One ")"]) a = false.
Proof. revert a; by_cases_on_char. Qed.

Lemma call_tail_match s : m true call_tail s Some = call_at s.
Proof.
  unfold call_tail, call_at; cbn [seq].
  rewrite m_Cat, m_Lit.
  change "CALL." with ("CALL" +:+ "."); rewrite eat_app.
  destruct (eat "CALL" s) as [s0|]; [|reflexivity].
  rewrite m_Cat, m_one.
  destruct (eat "." s0) as [s1|]; [|reflexivity].
  rewrite m_Cat, m_Group, dotted_name_match.
  2:{ intros s' b t Hs' Hb. rewrite m_Cat, m_Cls.
      unfold capture; cbn [rest]. rewrite Hs'.
      now destruct (in_cls (Set_ [One "("]) b). }
  destruct (rest s1) as [|a t]; [reflexivity|].
  destruct (in_cls ident0 a); [|reflexivity].
  rewrite m_Cat, m_one.
  destruct (eat "(" _) as [s3|]; [|reflexivity].
  rewrite m_Cat, m_Group, m_Plus, m_Cls.
  destruct (rest s3) as [|b u]; [reflexivity|].
  destruct (in_cls (NSet [One "("; One ")"]) b); [|reflexivity].
  rewrite iter_cls_greedy; [| |reflexivity].
  2:{ intros s' b' t' Hs' Hb'. rewrite m_Cat, m_Cls.
      unfold capture; cbn [rest]. rewrite Hs'.
      now rewrite (not_paren_not_close _ Hb'). }
  change (rest (step b u s3)) with u.
  rewrite m_Cat, m_one.
  destruct (eat ")" _) as [s5|]; [|reflexivity].
  rewrite m_Cat, m_StarLazy, iter_cls_lazy by reflexivity.
  exact (line_end_find (rest s5) s5 eq_refl).
Qed.

Lemma capture_app n s1 s2 u :
  rest s1 = u +:+ rest s2 ->
  capture n s1 s2 = {| prev := prev s2; rest := rest s2; caps := (n, u) :: caps s2 |}.
Proof.
  intros H; unfold capture; rewrite H, take_app_diff; reflexivity.
Qed.

Lemma run_app c r : fst (run c r) +:+ snd (run c r) = r.
Proof.
  induction r as [|a t IH]; cbn [run]; [reflexivity|].
  destruct (in_cls c a); [|reflexivity].
  destruct (run c t) as [u v]; cbn [fst snd] in *. simpl. now rewrite IH.
Qed.

Lemma span_run c r s :
  rest s = r ->
  span c r s = {| prev := last (prev s) (fst (run c r));
                  rest := snd (run c r); caps := caps s |}.
Proof.
  revert s; induction r as [|a t IH]; intros s Hr; cbn [span run].
  - destruct s; simpl in *; now subst.
  - destruct (in_cls c a).
    + rewrite IH by reflexivity. destruct (run c t) as [u v]; reflexivity.
    + destruct s; simpl in *; now subst.
Qed.

Lemma name_run_app r : fst (name_run r) +:+ snd (name_run r) = r.
Proof.
  induction r as [|a t IH]; cbn [name_run]; [reflexivity|].
  destruct (in_cls ident a).
  - destruct (name_run t) as [u v]; cbn [fst snd] in *. simpl. now rewrite IH.
  - destruct (in_cls (Set_ [One "."]) a); [|reflexivity].
    destruct t as [|d t']; [reflexivity|].
    destruct (in_cls ident0 d); [|reflexivity].
    destruct (name_run (String d t')) as [u v]; cbn [fst snd] in *.
    simpl. now rewrite IH.
Qed.

Lemma name_end_run r s :
  rest s = r ->
  name_end r s = {| prev := last (prev s) (fst (name_run r));
                    rest := snd (name_run r); caps := caps s |}.
Proof.
  revert s; induction r as [|a t IH]; intros s Hr; cbn [name_end name_run].
  - destruct s; simpl in *; now subst.
  - destruct (in_cls ident a).
    + rewrite IH by reflexivity. destruct (name_run t) as [u v]; reflexivity.
    + destruct (in_cls (Set_ [One "."]) a); [|destruct s; simpl in *; now subst].
      destruct t as [|d t']; [destruct s; simpl in *; now subst|].
      destruct (in_cls ident0 d); [|destruct s; simpl in *; now subst].
      rewrite IH by reflexivity.
      destruct (name_run (String d t')) as [u v]; reflexivity.
Qed.

Lemma line_end_run r s :
  rest s = r ->
  line_end r s =
  match blanks_run r with
  | Some (u, v) => Some {| prev := last (prev s) u; rest := v; caps := caps s |}
  | None => None
  end.
Proof.
  revert s; induction r as [|a t IH]; intros s Hr; cbn [line_end blanks_run].
  - destruct s; simpl in *; now subst.
  - destruct (Ascii.eqb a newline); [destruct s; simpl in *; now subst|].
    destruct (in_cls Space a); [|reflexivity].
    rewrite IH by reflexivity.
    destruct (blanks_run t) as [[u v]|]; reflexivity.
Qed.

(** The call pattern after its left part, on plain text. *)
Lemma call_at_here s :
  call_at s =
  match call_here (rest s) with
  | Some (f, g, w, r4) =>
      Some {| prev := last (Some ")"%char) w; rest := r4;
              caps := (3, g) :: (2, f) :: caps s |}
  | None => None
  end.
Proof.
  unfold call_at, call_here. rewrite eat_strip.
  destruct (strip "CALL." (rest s)) as [[|a t]|]; try reflexivity.
  cbn [rest]. destruct (in_cls ident0 a); [|reflexivity].
  rewrite name_end_run by reflexivity.
  pose proof (name_run_app t) as Hf.
  destruct (name_run t) as [f r1]; cbn [fst snd] in *.
  rewrite (capture_app 2 _ _ (String a f)) by (cbn [rest]; simpl; now rewrite Hf).
  rewrite eat_strip. cbn [rest prev caps step].
  destruct (strip "(" r1) as [[|b u]|]; try reflexivity.
  cbn [rest]. destruct (in_cls (NSet [One "("; One ")"]) b); [|reflexivity].
  rewrite span_run by reflexivity.
  pose proof (run_app (NSet [One "("; One ")"]) u) as Hg.
  destruct (run (NSet [One "("; One ")"]) u) as [g r2]; cbn [fst snd] in *.
  rewrite (capture_app 3 _ _ (String b g)) by (cbn [rest]; simpl; now rewrite Hg).
  rewrite eat_strip. cbn [rest prev caps step].
  destruct (strip ")" r2) as [r3|]; [|reflexivity].
  rewrite line_end_run by reflexivity. cbn [prev rest caps last].
  destruct (blanks_run r3) as [[w r4]|]; reflexivity.
Qed.

Lemma find_call_split s0 u r s :
  rest s0 = u +:+ r -> rest s = r -> caps s = [] ->
  find Any (fun s' => call_at (capture 1 s0 s')) r s =
  match call_split r with
  | Some (l, f, g, w, r4) => Some (call_pos (u +:+ l, f, g, w, r4))
  | None => None
  end.
Proof.
  revert u s; induction r as [|a t IH]; intros u s H0 Hr Hc;
    cbn [find call_split]; rewrite call_at_here;
    rewrite (capture_app 1 s0 s u) by (now rewrite Hr); cbn [rest caps]; rewrite Hr, Hc.
  - destruct (call_here "") as [[[[f g] w] r4]|]; [|reflexivity].
    unfold call_pos. now rewrite app_nil_r.
  - destruct (call_here (String a t)) as [[[[f g] w] r4]|].
    + unfold call_pos. now rewrite app_nil_r.
    + destruct (in_cls Any a); [|reflexivity].
      rewrite (IH (u +:+ String a "")); [| |reflexivity|exact Hc].
      * destruct (call_split t) as [[[[[l f] g] w] r4]|]; [|reflexivity].
        now rewrite app_assoc.
      * now rewrite app_assoc.
Qed.

(** [CALL_RE] at a position: at the start of a line, the first call of
    the line. *)
Lemma call_re_match pv r :
  match_at CALL_RE pv r =
  if match pv with None => true | Some c => Ascii.eqb c newline end
  then option_map call_pos (call_split r) else None.
Proof.
  unfold match_at, CALL_RE; cbn [body multiline seq].
  rewrite m_Cat, m_Bol. unfold at_bol; cbn [prev andb].
  destruct (match pv with None => true | Some c => Ascii.eqb c newline end);
    [|reflexivity].
  rewrite m_Cat, m_Group, m_StarLazy, iter_cls_lazy by reflexivity.
  cbn [rest].
  rewrite (find_ext Any _ (fun s' => call_at (capture 1 {| prev := pv; rest := r; caps := [] |} s')))
    by (intros s'; apply call_tail_match).
  rewrite (find_call_split _ "" r) by reflexivity.
  destruct (call_split r) as [[[[[l f] g] w] r4]|]; reflexivity.
Qed.

(** *** Substitution *)

Lemma sub_from_fuel p repl n1 n2 pv s :
  String.length s < n1 -> String.length s < n2 ->
  sub_from n1 p repl pv s = sub_from n2 p repl pv s.
Proof.
  revert n2 pv s; induction n1 as [|n1 IH]; intros [|n2] pv s H1 H2; try lia.
  cbn [sub_from].
  assert (Hcopy :
    match s with
    | EmptyString => EmptyString
    | String c t => String c (sub_from n1 p repl (Some c) t)
    end =
    match s with
    | EmptyString => EmptyString
    | String c t => String c (sub_from n2 p repl (Some c) t)
    end).
  { destruct s as [|c t]; [reflexivity|].
    simpl in H1, H2. f_equal. apply IH; lia. }
  destruct (match_at p pv s) as [e|]; [|exact Hcopy].
  destruct (String.length (rest e) <? String.length s) eqn:Hlt.
  - apply Nat.ltb_lt in Hlt. f_equal. apply IH; lia.
  - now rewrite Hcopy.
Qed.

End ReFacts.

(** ** The rewriting of the calls *)

Module Rewriter.
Import Str StrFacts ReFacts.

Local Arguments in_cls : simpl never.

(** *** What a call that was read looks like *)

Lemma blanks_run_app r w v : blanks_run r = Some (w, v) -> r = w +:+ v.
Proof.
  revert w v; induction r as [|a t IH]; intros w v; cbn [blanks_run].
  - now intros [= <- <-].
  - destruct (Ascii.eqb a newline); [now intros [= <- <-]|].
    destruct (in_cls Space a); [|discriminate].
    destruct (blanks_run t) as [[u v']|]; [|discriminate].
    intros [= <- <-]. simpl. now rewrite (IH u v' eq_refl).
Qed.

Lemma call_here_sound r f g w r4 :
  call_here r = Some (f, g, w, r4) ->
  r = "CALL." +:+ f +:+ "(" +:+ g +:+ ")" +:+ w +:+ r4.
Proof.
  unfold call_here.
  destruct (strip "CALL." r) as [[|a t]|] eqn:H0; try discriminate.
  destruct (in_cls ident0 a); [|discriminate].
  pose proof (name_run_app t) as Hf.
  destruct (name_run t) as [f' r1]; cbn [fst snd] in Hf.
  destruct (strip "(" r1) as [[|b u]|] eqn:H1; try discriminate.
  destruct (in_cls (NSet [One "("; One ")"]) b); [|discriminate].
  pose proof (run_app (NSet [One "("; One ")"]) u) as Hg.
  destruct (run (NSet [One "("; One ")"]) u) as [g' r2]; cbn [fst snd] in Hg.
  destruct (strip ")" r2) as [r3|] eqn:H2; [|discriminate].
  destruct (blanks_run r3) as [[w' r4']|] eqn:H3; [|discriminate].
  intros [= <- <- <- <-].
  apply strip_Some in H0, H1, H2. apply blanks_run_app in H3.
  subst r r1 r2 r3 t u. cbn [String.append]. repeat rewrite app_assoc. reflexivity.
Qed.

Lemma call_split_sound r l f g w r4 :
  call_split r = Some (l, f, g, w, r4) ->
  r = l +:+ "CALL." +:+ f +:+ "(" +:+ g +:+ ")" +:+ w +:+ r4.
Proof.
  revert l; induction r as [|a t IH]; intros l; cbn [call_split].
  - destruct (call_here "") as [[[[f' g'] w'] r4']|] eqn:H; [|discriminate].
    intros [= <- <- <- <- <-]. exact (call_here_sound _ _ _ _ _ H).
  - destruct (call_here (String a t)) as [[[[f' g'] w'] r4']|] eqn:H.
    + intros [= <- <- <- <- <-]. exact (call_here_sound _ _ _ _ _ H).
    + destruct (in_cls Any a); [|discriminate].
      destruct (call_split t) as [[[[[l' f'] g'] w'] r4']|]; [|discriminate].
      intros [= <- <- <- <- <-]. cbn [String.append]. now rewrite (IH l' eq_refl) at 1.
Qed.

Lemma call_split_shorter r l f g w r4 :
  call_split r = Some (l, f, g, w, r4) -> String.length r4 < String.length r.
Proof.
  intros H; rewrite (call_split_sound _ _ _ _ _ _ H).
  rewrite !length_app. simpl. lia.
Qed.

(** *** The scan of the rewriter, step by step *)

Lemma rewrite_from_eq module pv s :
  rewrite_from module pv s =
  match (if bol pv then call_split s else None) with
  | Some x =>
      fix_calls module (call_pos x)
      +:+ rewrite_from module (prev (call_pos x)) (rest (call_pos x))
  | None =>
      match s with
      | EmptyString => EmptyString
      | String c t => String c (rewrite_from module (Some c) t)
      end
  end.
Proof.
  unfold rewrite_from at 1; cbn [sub_from]. rewrite call_re_match. fold (bol pv).
  destruct (bol pv); [|destruct s; reflexivity].
  destruct (call_split s) as [[[[[l f] g] w] r4]|] eqn:Hs; [|destruct s; reflexivity].
  cbn [option_map call_pos rest prev].
  pose proof (call_split_shorter _ _ _ _ _ _ Hs) as Hlt.
  replace (String.length r4 <? String.length s) with true
    by (symmetry; now apply Nat.ltb_lt).
  f_equal. apply sub_from_fuel; lia.
Qed.

(** *** A well-formed call is read as it stands *)

Lemma in_not_paren a :
  in_cls (NSet [One "("; One ")"]) a = negb (Ascii.eqb a "(") && negb (Ascii.eqb a ")").
Proof.
  unfold in_cls; simpl. now destruct (Ascii.eqb a "("), (Ascii.eqb a ")").
Qed.

Lemma all_in_not_paren g :
  all_in (NSet [One "("; One ")"]) g = negb (contains "(" g) && negb (contains ")" g).
Proof.
  induction g as [|a t IH]; [reflexivity|].
  cbn [all_in contains]. rewrite IH, in_not_paren.
  destruct (Ascii.eqb a "("), (Ascii.eqb a ")"), (contains "(" t), (contains ")" t);
    reflexivity.
Qed.

Lemma arguments_shape g :
  arguments g = true ->
  exists b u, g = String b u /\ in_cls (NSet [One "("; One ")"]) b = true
              /\ all_in (NSet [One "("; One ")"]) u = true.
Proof.
  unfold arguments. rewrite <- andb_assoc, <- all_in_not_paren.
  destruct g as [|b u]; [discriminate|]. cbn [truthy all_in andb].
  intros [Hb Hu]%andb_true_iff. now exists b, u.
Qed.

Lemma run_all c u y :
  all_in c u = true -> run c y = (EmptyString, y) -> run c (u +:+ y) = (u, y).
Proof.
  intros Hu Hy; induction u as [|a t IH]; [exact Hy|].
  cbn [all_in] in Hu. apply andb_true_iff in Hu as [Ha Ht].
  cbn [String.append run]. now rewrite Ha, (IH Ht).
Qed.

Lemma name_run_tail t y :
  name_tail t = true -> name_run y = (EmptyString, y) -> name_run (t +:+ y) = (t, y).
Proof.
  intros Ht Hy; induction t as [|a t IH]; [exact Hy|].
  cbn [name_tail] in Ht. cbn [String.append name_run].
  destruct (in_cls ident a); [now rewrite (IH Ht)|].
  apply andb_true_iff in Ht as [[Ha Hd]%andb_true_iff Ht].
  apply Ascii.eqb_eq in Ha; subst a.
  change (in_cls (Set_ [One "."]) ".") with true; cbv iota.
  destruct t as [|d t']; [discriminate|].
  cbn [String.append]. rewrite Hd.
  change (String d (t' +:+ y)) with (String d t' +:+ y). now rewrite (IH Ht).
Qed.

Lemma blanks_run_blank w after :
  blank w = true -> line_stop after = true -> blanks_run (w +:+ after) = Some (w, after).
Proof.
  unfold blank; intros Hw Ha; induction w as [|a t IH].
  - destruct after as [|c after']; [reflexivity|].
    cbn [line_stop] in Ha. cbn [String.append blanks_run]. now rewrite Ha.
  - cbn [all_in contains] in Hw. cbn [String.append blanks_run].
    destruct (Ascii.eqb a newline); [now rewrite andb_false_r in Hw|].
    destruct (in_cls Space a); [|discriminate].
    now rewrite (IH Hw).
Qed.

Lemma call_here_call f g w after :
  dotted f = true -> arguments g = true -> blank w = true -> line_stop after = true ->
  call_here ("CALL." +:+ f +:+ "(" +:+ g +:+ ")" +:+ w +:+ after) = Some (f, g, w, after).
Proof.
  intros Hf Hg Hw Ha. unfold call_here. rewrite strip_app.
  destruct f as [|a t]; [discriminate|].
  cbn [dotted] in Hf. apply andb_true_iff in Hf as [Ha0 Ht].
  cbn [String.append]. rewrite Ha0.
  change (String "(" (g +:+ ")" +:+ w +:+ after)) with ("(" +:+ g +:+ ")" +:+ w +:+ after).
  rewrite (name_run_tail t _ Ht) by reflexivity. cbv beta match.
  cbn [strip]; rewrite Ascii.eqb_refl.
  destruct (arguments_shape g Hg) as (b & u & -> & Hb & Hu).
  cbn [String.append]. rewrite Hb.
  change (String ")" (w +:+ after)) with (")" +:+ w +:+ after).
  rewrite (run_all _ u _ Hu) by reflexivity. cbv beta match.
  cbn [String.append]; rewrite Ascii.eqb_refl.
  rewrite (blanks_run_blank w after Hw Ha). reflexivity.
Qed.

Lemma reads_call_here t :
  reads_call t = match call_here t with Some _ => true | None => false end.
Proof.
  unfold reads_call. rewrite call_tail_match, call_at_here. cbn [rest].
  now destruct (call_here t) as [[[[f g] w] r4]|].
Qed.

Lemma call_split_eq r :
  call_split r =
  match call_here r with
  | Some (f, g, w, r4) => Some (EmptyString, f, g, w, r4)
  | None =>
      match r with
      | String a t =>
          if in_cls Any a then
            match call_split t with
            | Some (l, f, g, w, r4) => Some (String a l, f, g, w, r4)
            | None => None
            end
          else None
      | EmptyString => None
      end
  end.
Proof. destruct r; reflexivity. Qed.

Lemma call_split_left l z f g w r4 :
  no_newline l = true -> leftmost l z = true ->
  call_here z = Some (f, g, w, r4) ->
  call_split (l +:+ z) = Some (l, f, g, w, r4).
Proof.
  unfold no_newline; intros Hl Hm Hz; induction l as [|a t IH].
  - cbn [String.append]. now rewrite call_split_eq, Hz.
  - cbn [leftmost] in Hm. apply andb_true_iff in Hm as [Hc Hm].
    rewrite reads_call_here in Hc.
    cbn [contains] in Hl. apply negb_true_iff, orb_false_iff in Hl as [Ha Hl].
    rewrite call_split_eq.
    destruct (call_here (String a t +:+ z)); [discriminate|].
    cbn [String.append]. unfold in_cls at 1. rewrite Ha.
    cbn [negb]. rewrite IH; [reflexivity | now rewrite Hl | exact Hm].
Qed.

(** *** The text before a line *)

Lemma strip_nl p w0 y :
  contains newline p = false ->
  strip p (w0 +:+ String newline y) =
  match strip p w0 with
  | Some t0 => Some (t0 +:+ String newline y)
  | None => None
  end.
Proof.
  revert w0; induction p as [|c p IH]; intros w0 Hp; [reflexivity|].
  cbn [contains] in Hp. apply orb_false_iff in Hp as [Hc Hp].
  destruct w0 as [|a t]; cbn [String.append strip].
  - rewrite Ascii.eqb_sym in Hc; unfold newline in *. now rewrite Hc.
  - destruct (Ascii.eqb a c); [now apply IH | reflexivity].
Qed.

Lemma name_run_nl w0 y :
  name_run (w0 +:+ String newline y) =
  (fst (name_run w0), snd (name_run w0) +:+ String newline y).
Proof.
  induction w0 as [|a t IH]; [reflexivity|].
  cbn [String.append name_run].
  destruct (in_cls ident a).
  - rewrite IH. now destruct (name_run t).
  - destruct (in_cls (Set_ [One "."]) a); [|reflexivity].
    destruct t as [|d t']; [reflexivity|].
    cbn [String.append] in *. destruct (in_cls ident0 d); [|reflexivity].
    rewrite IH. now destruct (name_run (String d t')).
Qed.

Lemma blanks_run_nl w0 y :
  blanks_run (w0 +:+ String newline y) =
  match blanks_run w0 with
  | Some (u, v) => Some (u, v +:+ String newline y)
  | None => None
  end.
Proof.
  induction w0 as [|a t IH]; cbn [String.append blanks_run].
  - unfold newline; now rewrite Ascii.eqb_refl.
  - destruct (Ascii.eqb a newline); [reflexivity|].
    destruct (in_cls Space a); [|reflexivity].
    rewrite IH. now destruct (blanks_run t) as [[u v]|].
Qed.

Lemma run_app_gen c u y :
  run c (u +:+ y) =
  match snd (run c u) with
  | EmptyString => (u +:+ fst (run c y), snd (run c y))
  | _ => (fst (run c u), snd (run c u) +:+ y)
  end.
Proof.
  induction u as [|a t IH]; cbn [String.append run].
  - now destruct (run c y).
  - destruct (in_cls c a); [|reflexivity].
    rewrite IH. destruct (run c t) as [p q]; cbn [fst snd].
    now destruct q.
Qed.

Lemma run_empty_rest c u : snd (run c u) = EmptyString -> fst (run c u) = u.
Proof.
  intros H. pose proof (run_app c u) as Happ. rewrite H, app_nil_r in Happ. exact Happ.
Qed.

(** A call on the text before a line does not depend on what follows the
    line, as long as that cannot close its arguments. *)
Lemma call_here_nl w0 y :
  close_at y = None ->
  call_here (w0 +:+ String newline y) =
  match call_here w0 with
  | Some (f, g, w, v) => Some (f, g, w, v +:+ String newline y)
  | None => None
  end.
Proof.
  intros Hy. unfold call_here.
  rewrite strip_nl by reflexivity.
  destruct (strip "CALL." w0) as [[|a t]|]; [reflexivity| |reflexivity].
  cbn [String.append]. destruct (in_cls ident0 a); [|reflexivity].
  rewrite name_run_nl. destruct (name_run t) as [f r1]; cbn [fst snd].
  rewrite strip_nl by reflexivity.
  destruct (strip "(" r1) as [[|b u]|]; [| |reflexivity].
  - (* the newline comes right after the opening parenthesis *)
    cbn [String.append]. change (in_cls (NSet [One "("; One ")"]) newline) with true.
    cbv beta match. unfold close_at in Hy.
    destruct (run (NSet [One "("; One ")"]) y) as [x1 x2]; cbn [snd] in Hy.
    destruct (strip ")" x2) as [r3|]; [|reflexivity]. now rewrite Hy.
  - cbn [String.append]. destruct (in_cls (NSet [One "("; One ")"]) b); [|reflexivity].
    rewrite run_app_gen.
    pose proof (run_empty_rest (NSet [One "("; One ")"]) u) as Hall.
    destruct (run (NSet [One "("; One ")"]) u) as [g r2]; cbn [fst snd] in *.
    destruct r2 as [|c r2'].
    + (* the arguments run on through the newline *)
      change (strip ")" "") with (@None string).
      cbn [run]. change (in_cls (NSet [One "("; One ")"]) newline) with true.
      cbv beta match. unfold close_at in Hy.
      destruct (run (NSet [One "("; One ")"]) y) as [x1 x2]; cbn [fst snd] in *.
      destruct (strip ")" x2) as [r3|]; [|reflexivity]. now rewrite Hy.
    + rewrite (strip_nl ")" (String c r2') y) by reflexivity.
      destruct (strip ")" (String c r2')) as [r3|]; [|reflexivity].
      rewrite blanks_run_nl. now destruct (blanks_run r3) as [[w v]|].
Qed.

Lemma call_split_nl w0 y :
  close_at y = None ->
  call_split (w0 +:+ String newline y) =
  match call_split w0 with
  | Some (l, f, g, w, v) => Some (l, f, g, w, v +:+ String newline y)
  | None => None
  end.
Proof.
  intros Hy; induction w0 as [|a t IH].
  - rewrite !call_split_eq, (call_here_nl "" y Hy).
    change (call_here "") with (@None (string * string * string * string)).
    reflexivity.
  - rewrite (call_split_eq (String a t)), call_split_eq, (call_here_nl _ y Hy).
    destruct (call_here (String a t)) as [[[[f g] w] v]|]; [reflexivity|].
    cbn [String.append]. destruct (in_cls Any a); [|reflexivity].
    rewrite IH. now destruct (call_split t) as [[[[[l f] g] w] v]|].
Qed.

(** The scan up to the end of a line does not depend on the lines after
    it, as long as they cannot close the arguments of a call. *)
Lemma rewrite_from_nl module y n :
  close_at y = None ->
  forall pv w0, String.length w0 < n ->
  rewrite_from module pv (w0 +:+ String newline y) =
  rewrite_from module pv w0 +:+ String newline (rewrite_from module (Some newline) y).
Proof.
  intros Hy; induction n as [|n IH]; intros pv w0 Hlen; [lia|].
  rewrite rewrite_from_eq, (rewrite_from_eq module pv w0), (call_split_nl w0 y Hy).
  destruct (bol pv).
  - destruct (call_split w0) as [[[[[l f] g] w] v]|] eqn:Hs.
    + pose proof (call_split_shorter _ _ _ _ _ _ Hs) as Hv.
      cbn [call_pos prev rest]. rewrite IH by lia.
      unfold fix_calls, group; cbn [caps]. now rewrite app_assoc.
    + destruct w0 as [|a t]; cbn [String.append].
      * reflexivity.
      * simpl in Hlen. now rewrite IH by lia.
  - destruct w0 as [|a t]; cbn [String.append].
    + reflexivity.
    + simpl in Hlen. now rewrite IH by lia.
Qed.

(** *** The line of a call *)

Lemma ident_not_paren a :
  in_cls ident a = true -> in_cls (NSet [One "("; One ")"]) a = true.
Proof. revert a; by_cases_on_char. Qed.

Lemma ident0_not_paren a :
  in_cls ident0 a = true -> in_cls (NSet [One "("; One ")"]) a = true.
Proof. revert a; by_cases_on_char. Qed.

Lemma name_tail_not_paren t :
  name_tail t = true -> all_in (NSet [One "("; One ")"]) t = true.
Proof.
  induction t as [|a t IH]; [reflexivity|]. cbn [name_tail all_in].
  destruct (in_cls ident a) eqn:Ha.
  - intros Ht. now rewrite (ident_not_paren _ Ha), IH.
  - intros [[Hd _]%andb_true_iff Ht]%andb_true_iff.
    apply Ascii.eqb_eq in Hd; subst a. now rewrite IH.
Qed.

Lemma blanks_run_none l z :
  no_newline l = true -> blanks_run (l +:+ String "C" z) = None.
Proof.
  unfold no_newline; induction l as [|a t IH]; intros Hl; [reflexivity|].
  cbn [contains] in Hl. apply negb_true_iff, orb_false_iff in Hl as [Ha Hl].
  cbn [String.append blanks_run]. rewrite Ha.
  destruct (in_cls Space a); [|reflexivity].
  now rewrite IH by (now rewrite Hl).
Qed.

(** The line of a call cannot close the arguments of a call that started
    on a line before it. *)
Lemma close_at_call l f z :
  no_newline l = true -> dotted f = true ->
  close_at (l +:+ "CALL." +:+ f +:+ "(" +:+ z) = None.
Proof.
  intros Hl Hf. unfold close_at. induction l as [|a t IH].
  - destruct f as [|a0 t0]; [discriminate|].
    cbn [dotted] in Hf. apply andb_true_iff in Hf as [Ha0 Ht0].
    assert (Hr : run (NSet [One "("; One ")"]) ("CALL." +:+ String a0 t0 +:+ "(" +:+ z)
                 = ("CALL." +:+ String a0 t0, "(" +:+ z)).
    { apply (run_all _ ("CALL." +:+ String a0 t0) ("(" +:+ z)); [|reflexivity].
      cbn [String.append all_in]. rewrite (ident0_not_paren _ Ha0).
      now rewrite (name_tail_not_paren _ Ht0). }
    cbn [String.append] in Hr |- *. now rewrite Hr.
  - unfold no_newline in Hl. cbn [contains] in Hl.
    apply negb_true_iff, orb_false_iff in Hl as [Ha Hl].
    cbn [String.append run].
    destruct (in_cls (NSet [One "("; One ")"]) a).
    + specialize (IH ltac:(unfold no_newline; now rewrite Hl)).
      cbn [String.append] in IH.
      now destruct (run (NSet [One "("; One ")"]) _).
    + cbn [snd strip]. destruct (Ascii.eqb a ")"); [|reflexivity].
      apply (blanks_run_none t); unfold no_newline; now rewrite Hl.
Qed.

Lemma fix_calls_call_pos module l f g w r4 :
  fix_calls module (call_pos (l, f, g, w, r4)) =
  "table.insert(ARGV, {" +:+ g +:+ "});" +:+ l
  +:+ "_G[redis.call('HGET', ':registry', '"
  +:+ (if negb (contains "." f) then lstrip "." (module +:+ "." +:+ f) else f)
  +:+ "')]();".
Proof. reflexivity. Qed.

Lemma rewrite_from_stop module pv after :
  line_stop after = true ->
  rewrite_from module pv after = rewrite_from module None after.
Proof.
  intros Ha. rewrite !rewrite_from_eq. destruct after as [|c t].
  - now destruct (bol pv).
  - cbn [line_stop] in Ha. apply Ascii.eqb_eq in Ha; subst c.
    rewrite call_split_eq. cbn [bol].
    change (call_here (String newline t)) with (@None (string * string * string * string)).
    change (in_cls Any newline) with false. now destruct (bol pv).
Qed.

Lemma rewrite_from_call module pv l f g w after :
  bol pv = true ->
  no_newline l = true ->
  leftmost l ("CALL." +:+ f +:+ "(" +:+ g +:+ ")" +:+ w +:+ after) = true ->
  dotted f = true -> arguments g = true -> blank w = true -> line_stop after = true ->
  rewrite_from module pv (l +:+ "CALL." +:+ f +:+ "(" +:+ g +:+ ")" +:+ w +:+ after) =
  fix_calls module (call_pos (l, f, g, w, after)) +:+ rewrite_from module None after.
Proof.
  intros Hpv Hl Hm Hf Hg Hw Ha.
  rewrite rewrite_from_eq, Hpv.
  rewrite (call_split_left l _ f g w after Hl Hm (call_here_call f g w after Hf Hg Hw Ha)).
  cbn [call_pos prev rest]. now rewrite (rewrite_from_stop module _ after Ha).
Qed.

(** A call on a line of its own, in any text: the text before the line
    and the text after it are rewritten as they are on their own, and the
    line becomes what [fix_calls] returns for its three parts. *)
Lemma rewrite_calls_line module before l f g w after :
  line_start before = true -> line_stop after = true ->
  no_newline l = true ->
  leftmost l ("CALL." +:+ f +:+ "(" +:+ g +:+ ")" +:+ w +:+ after) = true ->
  dotted f = true -> arguments g = true -> blank w = true ->
  rewrite_calls module
    (before +:+ l +:+ "CALL." +:+ f +:+ "(" +:+ g +:+ ")" +:+ w +:+ after) =
  rewrite_calls module before
  +:+ fix_calls module (call_pos (l, f, g, w, after))
  +:+ rewrite_calls module after.
Proof.
  intros Hb Ha Hl Hm Hf Hg Hw.
  change (rewrite_calls module) with (rewrite_from module None).
  pose proof (close_at_call l f (g +:+ ")" +:+ w +:+ after) Hl Hf) as Hc.
  pose proof (fun pv H => rewrite_from_call module pv l f g w after H Hl Hm Hf Hg Hw Ha)
    as Hcall.
  set (x := l +:+ "CALL." +:+ f +:+ "(" +:+ g +:+ ")" +:+ w +:+ after) in *.
  unfold line_start in Hb.
  destruct (last None before) as [c|] eqn:Hlast.
  - apply Ascii.eqb_eq in Hb; subst c.
    destruct (last_split _ _ _ Hlast) as [-> | [w0 ->]]; [discriminate|].
    rewrite app_assoc. change (String newline "" +:+ x) with (String newline x).
    rewrite (rewrite_from_nl module x (S (String.length w0)) Hc) by lia.
    rewrite (rewrite_from_nl module "" (S (String.length w0))) by (reflexivity || lia).
    rewrite (Hcall (Some newline) eq_refl).
    change (rewrite_from module (Some newline) "") with "".
    rewrite !app_assoc. reflexivity.
  - destruct before as [|a before'].
    + cbn [String.append]. now rewrite (Hcall None eq_refl).
    + destruct (last_none_empty _ _ Hlast).
Qed.

End Rewriter.

(** ** The mangler *)

Module Mangler.
Import Str StrFacts ReFacts.

Local Arguments in_cls : simpl never.
Local Arguments capture : simpl never.

Ltac case_eqb :=
  match goal with
  | |- context [Ascii.eqb ?a ?b] =>
      destruct (Ascii.eqb_spec a b) as [->|?]; simpl
  end.

Lemma capture4 n pv0 cs0 pv c1 c2 c3 c4 t :
  capture n {| prev := pv0;
               rest := String c1 (String c2 (String c3 (String c4 t)));
               caps := cs0 |}
            {| prev := pv; rest := t; caps := [] |} =
  {| prev := pv; rest := t;
     caps := [(n, String c1 (String c2 (String c3 (String c4 ""))))] |}.
Proof.
  unfold capture; cbn [prev rest caps]; do 3 f_equal.
  exact (take_app_diff (String c1 (String c2 (String c3 (String c4 "")))) t).
Qed.

Lemma keys_match pv s :
  match_at KEYS_RE pv s =
  if hit pv s
  then Some {| prev := String.get 3 s; rest := drop 4 s; caps := [(1, take 4 s)] |}
  else None.
Proof.
  unfold match_at, hit, name_at, quoted; simpl.
  destruct pv as [a|]; [destruct (in_cls quotes a); [reflexivity|]|];
    destruct s as [|c1 [|c2 [|c3 [|c4 s]]]]; simpl; try reflexivity.
  all: repeat case_eqb; try reflexivity.
  all: unfold step; cbn [caps]; rewrite capture4.
  all: destruct s as [|a0 t]; simpl; [reflexivity|].
  all: destruct (in_cls quotes a0); reflexivity.
Qed.

Lemma hit_shape pv s :
  hit pv s = true ->
  exists t, (s = "KEYS" +:+ t \/ s = "ARGV" +:+ t) /\
            quoted pv = false /\ quoted (head t) = false.
Proof.
  unfold hit, name_at.
  destruct (quoted pv); [discriminate|].
  destruct s as [|c1 [|c2 [|c3 [|c4 t]]]]; simpl;
    repeat case_eqb; try discriminate.
  all: exists t; destruct t as [|a t]; simpl in *; auto.
  all: destruct (in_cls quotes a); [discriminate | auto].
Qed.

Lemma mangle_ref_name pv n t :
  n = "KEYS" \/ n = "ARGV" ->
  mangle_ref pv (n +:+ t) =
  (if quoted pv || quoted (head t) then n else "_" +:+ n)
  +:+ mangle_ref (last None n) t.
Proof.
  intros [-> | ->]; simpl; unfold hit, name_at; simpl;
    destruct (quoted pv); simpl; destruct t as [|a t]; simpl;
    try destruct (in_cls quotes a); reflexivity.
Qed.

Lemma sub_from_mangle_ref fuel pv s :
  String.length s < fuel -> sub_from fuel KEYS_RE alias pv s = mangle_ref pv s.
Proof.
  revert pv s; induction fuel as [|n IH]; intros pv s Hlen; [lia|].
  cbn [sub_from]; rewrite keys_match.
  destruct (hit pv s) eqn:Hhit.
  - destruct (hit_shape _ _ Hhit) as (t & Hs & Hpv & Ht).
    assert (Hlt : (String.length t <? String.length s) = true).
    { apply Nat.ltb_lt. destruct Hs as [-> | ->]; simpl; lia. }
    assert (Ht' : String.length t < n).
    { destruct Hs as [-> | ->]; simpl in Hlen; lia. }
    destruct Hs as [-> | ->].
    + rewrite (mangle_ref_name pv "KEYS" t), Hpv, Ht by auto.
      cbn [rest prev drop String.append get String.length] in Hlt |- *.
      rewrite Hlt, (IH _ _ Ht'). reflexivity.
    + rewrite (mangle_ref_name pv "ARGV" t), Hpv, Ht by auto.
      cbn [rest prev drop String.append get String.length] in Hlt |- *.
      rewrite Hlt, (IH _ _ Ht'). reflexivity.
  - destruct s as [|c t]; [reflexivity|].
    cbn [mangle_ref]; rewrite Hhit, IH by (simpl in Hlen; lia).
    reflexivity.
Qed.

Lemma mangle_mangle_ref s : mangle s = mangle_ref None s.
Proof. apply sub_from_mangle_ref; lia. Qed.

Lemma mangle_ref_quoted pv pv' s :
  quoted pv = quoted pv' -> mangle_ref pv s = mangle_ref pv' s.
Proof.
  intros H; destruct s as [|c t]; [reflexivity|].
  cbn [mangle_ref]; unfold hit; now rewrite H.
Qed.

(** No name starts in the last positions before a name: two occurrences
    never overlap, so what the scan does before an occurrence does not
    depend on it. *)
Lemma hit_before_name pv w n t :
  w <> "" -> n = "KEYS" \/ n = "ARGV" ->
  hit pv (w +:+ n +:+ t) = hit pv w.
Proof.
  intros Hw Hn; unfold hit, name_at; destruct (quoted pv); [reflexivity|].
  destruct w as [|c1 [|c2 [|c3 [|c4 [|c5 w]]]]]; [congruence|..];
    destruct Hn as [-> | ->]; simpl; repeat case_eqb; reflexivity.
Qed.

Lemma mangle_ref_app_name pv w n t :
  n = "KEYS" \/ n = "ARGV" ->
  mangle_ref pv (w +:+ n +:+ t) =
  mangle_ref pv w +:+ mangle_ref (last pv w) (n +:+ t).
Proof.
  intros Hn; revert pv; induction w as [|c w IH]; intros pv; [reflexivity|].
  change (String c w +:+ n +:+ t) with (String c (w +:+ n +:+ t)).
  cbn [mangle_ref last].
  change (String c (w +:+ n +:+ t)) with (String c w +:+ n +:+ t).
  rewrite hit_before_name, IH by (auto; discriminate).
  destruct (hit pv (String c w)); reflexivity.
Qed.

(** The mangler at an occurrence of a name: the text before it and the
    text after it are mangled as they are on their own, and the name gets
    its underscore unless a quote stands right before or right after it. *)
Lemma mangle_occurrence pre n post :
  n = "KEYS" \/ n = "ARGV" ->
  mangle (pre +:+ n +:+ post) =
  mangle pre
  +:+ (if quoted (last None pre) || quoted (head post) then n else "_" +:+ n)
  +:+ mangle post.
Proof.
  intros Hn; rewrite !mangle_mangle_ref.
  rewrite mangle_ref_app_name, mangle_ref_name by assumption.
  rewrite (mangle_ref_quoted (last None n) None post)
    by (destruct Hn as [-> | ->]; reflexivity).
  reflexivity.
Qed.

(** *** Text that the mangler treats part by part *)

Lemma hit_before_apart pv w c t :
  w <> "" -> apart c = true -> hit pv (w +:+ String c t) = hit pv w.
Proof.
  intros Hw Hc; unfold hit, name_at; destruct (quoted pv); [reflexivity|].
  apply andb_true_iff in Hc as [Hq Hc]. apply negb_true_iff in Hq.
  destruct w as [|c1 [|c2 [|c3 [|c4 [|c5 w]]]]]; [congruence|..]; simpl;
    repeat case_eqb; try reflexivity; try (vm_compute in Hc; discriminate).
  all: now rewrite Hq.
Qed.

Lemma mangle_ref_apart pv u c v :
  apart c = true ->
  mangle_ref pv (u +:+ String c v) = mangle_ref pv u +:+ String c (mangle_ref None v).
Proof.
  intros Hc; revert pv; induction u as [|a u IH]; intros pv.
  - cbn [String.append mangle_ref].
    assert (Hhit : hit pv (String c v) = false).
    { pose proof Hc as [_ Hl]%andb_true_iff.
      unfold hit, name_at; simpl; repeat case_eqb;
        try (vm_compute in Hl; discriminate); now rewrite !andb_false_r. }
    rewrite Hhit. cbn [String.append]. f_equal. apply mangle_ref_quoted.
    apply andb_true_iff in Hc as [Hq _]. apply negb_true_iff in Hq. exact Hq.
  - change (String a u +:+ String c v) with (String a (u +:+ String c v)).
    cbn [mangle_ref].
    change (String a (u +:+ String c v)) with (String a u +:+ String c v).
    rewrite hit_before_apart, IH by (auto; discriminate).
    destruct (hit pv (String a u)); reflexivity.
Qed.

Lemma mangle_apart u c v :
  apart c = true -> mangle (u +:+ String c v) = mangle u +:+ String c (mangle v).
Proof. intros Hc. rewrite !mangle_mangle_ref. now apply mangle_ref_apart. Qed.

Lemma mangle_marker u v :
  mangle (u +:+ "CALL." +:+ v) = mangle u +:+ "CALL." +:+ mangle v.
Proof.
  change (u +:+ "CALL." +:+ v) with (u +:+ String "C" ("A" +:+ String "L" ("" +:+ String "L" ("" +:+ String "." v)))).
  rewrite (mangle_apart u "C"), (mangle_apart "A" "L"), (mangle_apart "" "L"),
    (mangle_apart "" ".") by reflexivity.
  reflexivity.
Qed.

Lemma space_apart c : in_cls Space c = true -> apart c = true.
Proof. revert c. intros [[] [] [] [] [] [] [] []]; vm_compute; congruence. Qed.

Lemma mangle_blank w v : all_in Space w = true -> mangle (w +:+ v) = w +:+ mangle v.
Proof.
  induction w as [|c w IH]; [reflexivity|]. cbn [all_in].
  intros [Hc Hw]%andb_true_iff.
  change (String c w +:+ v) with ("" +:+ String c (w +:+ v)).
  rewrite (mangle_apart "" c) by now apply space_apart.
  now rewrite (IH Hw).
Qed.

(** After a text that ends a line, the mangler starts afresh. *)
Lemma mangle_after_line before x :
  line_start before = true -> mangle (before +:+ x) = mangle before +:+ mangle x.
Proof.
  unfold line_start. destruct (last None before) as [c|] eqn:Hlast.
  - intros ->%Ascii.eqb_eq.
    destruct (last_split _ _ _ Hlast) as [-> | [w0 ->]]; [discriminate|].
    rewrite app_assoc. cbn [String.append].
    rewrite !(mangle_apart w0 newline) by reflexivity.
    now rewrite app_assoc.
  - intros _. destruct before as [|a t]; [reflexivity|].
    destruct (last_none_empty _ _ Hlast).
Qed.

(** *** What the mangler keeps *)

Lemma contains_mangle_ref c pv s :
  c <> "_"%char -> contains c (mangle_ref pv s) = contains c s.
Proof.
  intros Hc; revert pv; induction s as [|a t IH]; intros pv; [reflexivity|].
  cbn [mangle_ref]. destruct (hit pv (String a t)); cbn [String.append contains].
  - rewrite IH. destruct (Ascii.eqb_spec "_" c); [congruence | reflexivity].
  - now rewrite IH.
Qed.

Lemma truthy_mangle_ref pv s : truthy (mangle_ref pv s) = truthy s.
Proof.
  destruct s as [|a t]; [reflexivity|]. cbn [mangle_ref].
  now destruct (hit pv (String a t)).
Qed.

Lemma head_mangle_ref pv a t :
  head (mangle_ref pv (String a t)) = Some "_"%char \/
  head (mangle_ref pv (String a t)) = Some a.
Proof. cbn [mangle_ref]. destruct (hit pv (String a t)); [now left | now right]. Qed.

Lemma hit_first pv a t : hit pv (String a t) = true -> a = "K"%char \/ a = "A"%char.
Proof.
  intros H. destruct (hit_shape _ _ H) as (t' & [Hs | Hs] & _);
    cbn [String.append] in Hs; injection Hs as -> _; auto.
Qed.

Lemma name_tail_mangle_ref pv t :
  name_tail t = true -> name_tail (mangle_ref pv t) = true.
Proof.
  revert pv; induction t as [|a t IH]; intros pv; [reflexivity|].
  cbn [name_tail mangle_ref].
  destruct (in_cls ident a) eqn:Ha.
  - intros Ht. destruct (hit pv (String a t)); cbn [String.append name_tail].
    + change (in_cls ident "_") with true. cbv iota. rewrite Ha. now apply IH.
    + rewrite Ha. now apply IH.
  - intros [[Hd Hi]%andb_true_iff Ht]%andb_true_iff.
    apply Ascii.eqb_eq in Hd; subst a.
    destruct (hit pv (String "." t)) eqn:Hhit.
    { destruct (hit_first _ _ _ Hhit); discriminate. }
    cbn [String.append name_tail]. rewrite Ha.
    rewrite (IH _ Ht), andb_true_r. cbn [andb Ascii.eqb Bool.eqb].
    destruct t as [|d t']; [discriminate|].
    destruct (head_mangle_ref (Some "."%char) d t') as [H | H];
      destruct (mangle_ref (Some "."%char) (String d t')) as [|e r];
      try discriminate; injection H as ->; [reflexivity | exact Hi].
Qed.

Lemma dotted_mangle f : dotted f = true -> dotted (mangle f) = true.
Proof.
  rewrite mangle_mangle_ref. destruct f as [|a t]; [discriminate|].
  cbn [dotted mangle_ref]. intros [Ha Ht]%andb_true_iff.
  destruct (hit None (String a t)); cbn [String.append dotted name_tail].
  - change (in_cls ident0 "_") with true. rewrite (ident0_ident _ Ha).
    now apply name_tail_mangle_ref.
  - rewrite Ha. now apply name_tail_mangle_ref.
Qed.

Lemma arguments_mangle g : arguments g = true -> arguments (mangle g) = true.
Proof.
  unfold arguments. rewrite mangle_mangle_ref, truthy_mangle_ref.
  now rewrite !contains_mangle_ref by discriminate.
Qed.

Lemma no_newline_mangle l : no_newline (mangle l) = no_newline l.
Proof.
  unfold no_newline. now rewrite mangle_mangle_ref, contains_mangle_ref by discriminate.
Qed.

Lemma line_stop_mangle after : line_stop after = true -> line_stop (mangle after) = true.
Proof.
  rewrite mangle_mangle_ref. destruct after as [|c t]; [reflexivity|].
  cbn [line_stop mangle_ref]. intros ->%Ascii.eqb_eq.
  destruct (hit None (String newline t)) eqn:Hhit; [|reflexivity].
  destruct (hit_first _ _ _ Hhit); discriminate.
Qed.

Lemma line_start_mangle before :
  line_start before = true -> line_start (mangle before) = true.
Proof.
  unfold line_start. destruct (last None before) as [c|] eqn:Hlast.
  - intros ->%Ascii.eqb_eq.
    destruct (last_split _ _ _ Hlast) as [-> | [w0 ->]]; [discriminate|].
    rewrite (mangle_apart w0 newline) by reflexivity.
    now rewrite last_app.
  - intros _. destruct before as [|a t]; [reflexivity|].
    destruct (last_none_empty _ _ Hlast).
Qed.

End Mangler.

(** ** The transformation as a whole *)

Module Transformation.
Import Str StrFacts ReFacts Rewriter Mangler.

Local Arguments in_cls : simpl never.

(** *** The first marker of a line *)

Lemma strip_startswith p r : startswith r p = false -> strip p r = None.
Proof.
  revert r; induction p as [|b p IH]; intros r; [discriminate|].
  destruct r as [|a r]; [reflexivity|]. cbn [startswith strip].
  destruct (Ascii.eqb a b); [apply IH | reflexivity].
Qed.

Lemma startswith_strip p r t : strip p r = Some t -> startswith r p = true.
Proof.
  revert r; induction p as [|b p IH]; intros r; [reflexivity|].
  destruct r as [|a r]; [discriminate|]. cbn [startswith strip].
  destruct (Ascii.eqb a b); [apply IH | discriminate].
Qed.

Lemma no_straddle w z :
  w <> "" -> startswith w "CALL." = false ->
  startswith (w +:+ "CALL." +:+ z) "CALL." = false.
Proof.
  intros Hw. destruct w as [|c1 [|c2 [|c3 [|c4 [|c5 w]]]]]; [congruence|..]; simpl;
    repeat case_eqb; auto.
Qed.

Lemma leftmost_no_marker l z :
  occurs "CALL." l = false -> leftmost l ("CALL." +:+ z) = true.
Proof.
  induction l as [|a l IH]; [reflexivity|].
  cbn [occurs leftmost]. intros [Hs Ho]%orb_false_iff.
  rewrite (IH Ho), andb_true_r, reads_call_here. unfold call_here.
  rewrite strip_startswith; [reflexivity|].
  now apply no_straddle.
Qed.

(** *** The marker in a mangled text *)

Lemma startswith_mangle_ref pv s :
  startswith (mangle_ref pv s) "CALL." = true -> startswith s "CALL." = true.
Proof.
  destruct s as [|c1 [|c2 [|c3 [|c4 [|c5 s]]]]]; cbn [mangle_ref];
    repeat match goal with |- context [hit ?a ?b] => destruct (hit a b) end;
    simpl; repeat case_eqb; auto.
Qed.

Lemma occurs_mangle_ref pv s :
  occurs "CALL." s = false -> occurs "CALL." (mangle_ref pv s) = false.
Proof.
  revert pv; induction s as [|a t IH]; intros pv; [reflexivity|].
  cbn [occurs]. intros [Hs Ho]%orb_false_iff.
  pose proof (startswith_mangle_ref pv (String a t)) as Hm.
  cbn [mangle_ref] in *. destruct (hit pv (String a t)) eqn:Hhit;
    cbn [String.append occurs] in *.
  - rewrite (IH _ Ho), orb_false_r.
    destruct (hit_first _ _ _ Hhit) as [-> | ->]; reflexivity.
  - rewrite (IH _ Ho), orb_false_r.
    destruct (startswith (String a (mangle_ref (Some a) t)) "CALL."); [|reflexivity].
    rewrite Hm in Hs by reflexivity. discriminate.
Qed.

(** *** A call in the source *)

(** The mangler and the rewriter on a source with a call on a line of its
    own, the left part of the line without the marker: every part of the
    line is mangled before the call is rewritten. *)
Lemma fix_calls_line module before l f g w after :
  line_start before = true -> line_stop after = true ->
  no_newline l = true -> occurs "CALL." l = false ->
  dotted f = true -> arguments g = true -> blank w = true ->
  _fix_calls
    (before +:+ l +:+ "CALL." +:+ f +:+ "(" +:+ g +:+ ")" +:+ w +:+ after) module =
  CALL_HEADER
  +:+ rewrite_calls module (mangle before)
  +:+ fix_calls module (call_pos (mangle l, mangle f, mangle g, w, mangle after))
  +:+ rewrite_calls module (mangle after).
Proof.
  intros Hb Ha Hl Ho Hf Hg Hw.
  change (_fix_calls ?x module) with (CALL_HEADER +:+ rewrite_calls module (mangle x)).
  f_equal.
  rewrite (mangle_after_line before _ Hb), mangle_marker.
  change (f +:+ "(" +:+ g +:+ ")" +:+ w +:+ after)
    with (f +:+ String "(" (g +:+ String ")" (w +:+ after))).
  rewrite (mangle_apart f "("), (mangle_apart g ")") by reflexivity.
  pose proof Hw as [Hw1 _]%andb_true_iff. rewrite (mangle_blank w after Hw1).
  apply rewrite_calls_line; auto using line_start_mangle, line_stop_mangle,
    dotted_mangle, arguments_mangle.
  - now rewrite no_newline_mangle.
  - apply leftmost_no_marker. rewrite mangle_mangle_ref. now apply occurs_mangle_ref.
Qed.

End Transformation.

(** ** The registry *)

Module Registry.
Import Str StrFacts.

Lemma fold_load_step p l pipe added :
  fold_left (load_step p) l (pipe, added) =
  (pipe ++ flat_map commands_of (chosen p l), added + length (chosen p l)).
Proof.
  revert pipe added; induction l as [|[full [hash fixed]] l IH]; intros pipe added.
  - cbn. now rewrite List.app_nil_r, Nat.add_0_r.
  - cbn [fold_left load_step chosen List.filter fst].
    destruct (startswith full p); rewrite IH; [|reflexivity].
    cbn [flat_map commands_of length]. fold (chosen p l).
    rewrite <- List.app_assoc. f_equal. lia.
Qed.

Lemma load_scripts_eq c prefix w :
  load_scripts c prefix w =
  (length (chosen (publish_prefix prefix) (map_to_list (REGISTRY w))),
   send c (Pipeline true
             (flat_map commands_of
                (chosen (publish_prefix prefix) (map_to_list (REGISTRY w))))) w).
Proof.
  unfold load_scripts. fold (publish_prefix prefix).
  now rewrite fold_load_step.
Qed.

Lemma chosen_all l : chosen "" l = l.
Proof.
  unfold chosen; induction l as [|x l IH]; [reflexivity|].
  cbn [List.filter startswith] in IH |- *. now rewrite IH.
Qed.

Lemma lstrip_no_dot name :
  contains "." name = false -> lstrip "." ("" +:+ "." +:+ name) = name.
Proof.
  cbn [String.append lstrip]. change (Ascii.eqb "." ".") with true. cbv iota.
  destruct name as [|a t]; [reflexivity|]. cbn [contains lstrip].
  now intros [-> _]%orb_false_iff.
Qed.

End Registry.

(** ** Further properties of the mangler *)

Module MoreMangler.
Import Str StrFacts ReFacts Mangler.

Local Arguments in_cls : simpl never.

Lemma name_at_occurs s :
  occurs "KEYS" s = false -> occurs "ARGV" s = false -> name_at s = false.
Proof.
  unfold name_at. destruct s as [|a t]; [reflexivity|]. cbn [occurs].
  now intros [-> _]%orb_false_iff [-> _]%orb_false_iff.
Qed.

Lemma mangle_ref_no_name pv s :
  occurs "KEYS" s = false -> occurs "ARGV" s = false -> mangle_ref pv s = s.
Proof.
  revert pv; induction s as [|a t IH]; intros pv Hk Ha; [reflexivity|].
  cbn [mangle_ref]. unfold hit.
  rewrite (name_at_occurs _ Hk Ha), andb_false_r. cbn [andb String.append].
  cbn [occurs] in Hk, Ha.
  apply orb_false_iff in Hk as [_ Hk]. apply orb_false_iff in Ha as [_ Ha].
  now rewrite IH.
Qed.

Lemma replace_underscore_mangle_ref pv s :
  replace "_" "" (mangle_ref pv s) = replace "_" "" s.
Proof.
  revert pv; induction s as [|a t IH]; intros pv; [reflexivity|].
  cbn [mangle_ref]. destruct (hit pv (String a t)); cbn [String.append replace];
    now rewrite IH.
Qed.

Lemma length_mangle_ref pv s : String.length s <= String.length (mangle_ref pv s).
Proof.
  revert pv; induction s as [|a t IH]; intros pv; [reflexivity|].
  cbn [mangle_ref]. specialize (IH (Some a)).
  destruct (hit pv (String a t)); cbn [String.append String.length]; lia.
Qed.

(** *** The mangled text has no name left to mangle but after an underscore *)

Ltac peel E t c u :=
  destruct t as [|c u]; [discriminate E|];
  cbn [mangle_ref] in E;
  destruct (hit _ (String c u)); cbn [String.append] in E; [discriminate E|];
  injection E as -> E.

Lemma hit_tail c t t' :
  mangle_ref (Some c) t = t' -> quoted (head t') = false -> quoted (head t) = false.
Proof.
  intros <-. destruct t as [|a u]; [reflexivity|]. cbn [mangle_ref].
  destruct (hit (Some c) (String a u)) eqn:Hh; [|exact (fun H => H)].
  intros _. now destruct (hit_first _ _ _ Hh) as [-> | ->].
Qed.

Lemma hit_kept pv c t :
  hit pv (String c (mangle_ref (Some c) t)) = true -> hit pv (String c t) = true.
Proof.
  intros H. destruct (hit_shape _ _ H) as (t' & [E | E] & Hp & Hq);
    cbn [String.append] in E; injection E as -> E;
    peel E t c2 t2; peel E t2 c3 t3; peel E t3 c4 t4;
    unfold hit, name_at; rewrite Hp; cbn;
    (replace (get 0 t4) with (head t4) by now destruct t4);
    now rewrite (hit_tail _ _ _ E Hq).
Qed.

Lemma aliased_mangle_ref pv s : aliased pv (mangle_ref pv s) = true.
Proof.
  revert pv; induction s as [|c t IH]; intros pv; [reflexivity|].
  cbn [mangle_ref]. destruct (hit pv (String c t)) eqn:Hh.
  - cbn [String.append aliased]. rewrite IH, !keys_match.
    replace (hit pv _) with false.
    + destruct (hit (Some _) _); reflexivity.
    + unfold hit, name_at. cbn. now rewrite andb_false_r.
  - cbn [String.append aliased]. rewrite IH, andb_true_r, keys_match.
    destruct (hit pv (String c (mangle_ref (Some c) t))) eqn:Hh'; [|reflexivity].
    apply hit_kept in Hh'. congruence.
Qed.

End MoreMangler.

(** ** Further properties of the rewriting of the calls *)

Module MoreRewriter.
Import Str StrFacts ReFacts Rewriter Mangler Transformation.

Local Arguments in_cls : simpl never.

Lemma call_split_no_marker s : occurs "CALL." s = false -> call_split s = None.
Proof.
  induction s as [|a t IH]; intros H; rewrite call_split_eq.
  - reflexivity.
  - cbn [occurs] in H. apply orb_false_iff in H as [Hs Ho].
    unfold call_here. rewrite (strip_startswith _ _ Hs), (IH Ho).
    now destruct (in_cls Any a).
Qed.

Lemma rewrite_from_no_marker module pv s :
  occurs "CALL." s = false -> rewrite_from module pv s = s.
Proof.
  revert pv; induction s as [|a t IH]; intros pv H; rewrite rewrite_from_eq;
    rewrite (call_split_no_marker _ H); destruct (bol pv); try reflexivity.
  all: cbn [occurs] in H; apply orb_false_iff in H as [_ Ho]; now rewrite IH.
Qed.

(** Shapes of what the readings return. *)

Lemma run_shape c r : all_in c (fst (run c r)) = true.
Proof.
  induction r as [|a t IH]; [reflexivity|]. cbn [run].
  destruct (in_cls c a) eqn:Ha; [|reflexivity].
  destruct (run c t) as [u v]. cbn [fst all_in] in *. now rewrite Ha.
Qed.

Lemma name_run_head d t :
  in_cls ident0 d = true ->
  exists u, fst (name_run (String d t)) = String d u.
Proof.
  intros Hd. cbn [name_run]. rewrite (ident0_ident _ Hd).
  destruct (name_run t) as [u v]. now exists u.
Qed.

Lemma name_run_shape r : name_tail (fst (name_run r)) = true.
Proof.
  induction r as [|a t IH]; [reflexivity|]. cbn [name_run].
  destruct (in_cls ident a) eqn:Ha.
  - destruct (name_run t) as [u v]. cbn [fst name_tail] in *. now rewrite Ha.
  - destruct (in_cls (Set_ [One "."]) a) eqn:Hdot; [|reflexivity].
    destruct t as [|d t']; [reflexivity|].
    destruct (in_cls ident0 d) eqn:Hd; [|reflexivity].
    destruct (name_run_head d t' Hd) as [u' Hu].
    destruct (name_run (String d t')) as [u v]. cbn [fst] in *. subst u.
    change (name_tail (String a (String d u')))
      with (if in_cls ident a then name_tail (String d u')
            else Ascii.eqb a "." && in_cls ident0 d && name_tail (String d u')).
    rewrite Ha, Hd, IH.
    rewrite in_one in Hdot. now rewrite Hdot.
Qed.

Lemma blanks_run_shape r w v :
  blanks_run r = Some (w, v) -> blank w = true /\ line_stop v = true.
Proof.
  revert w v; induction r as [|a t IH]; intros w v; cbn [blanks_run].
  - now intros [= <- <-].
  - destruct (Ascii.eqb a newline) eqn:Ha.
    + intros [= <- <-]. split; [reflexivity|]. cbn [line_stop]. exact Ha.
    + destruct (in_cls Space a) eqn:Hs; [|discriminate].
      destruct (blanks_run t) as [[u v']|]; [|discriminate].
      intros [= <- <-]. destruct (IH _ _ eq_refl) as [Hb Hl]. split; [|exact Hl].
      unfold blank in *. cbn [all_in contains]. rewrite Hs, Ha.
      exact Hb.
Qed.

Lemma call_here_shape r f g w r4 :
  call_here r = Some (f, g, w, r4) ->
  dotted f = true /\ arguments g = true /\ blank w = true /\ line_stop r4 = true.
Proof.
  unfold call_here.
  destruct (strip "CALL." r) as [[|a t]|]; try discriminate.
  destruct (in_cls ident0 a) eqn:Ha; [|discriminate].
  pose proof (name_run_shape t) as Hf.
  destruct (name_run t) as [f' r1]. cbn [fst] in Hf.
  destruct (strip "(" r1) as [[|b u]|]; try discriminate.
  destruct (in_cls (NSet [One "("; One ")"]) b) eqn:Hb; [|discriminate].
  pose proof (run_shape (NSet [One "("; One ")"]) u) as Hg.
  destruct (run (NSet [One "("; One ")"]) u) as [g' r2]. cbn [fst] in Hg.
  destruct (strip ")" r2) as [r3|]; [|discriminate].
  destruct (blanks_run r3) as [[w' r4']|] eqn:Hw; [|discriminate].
  intros [= <- <- <- <-].
  destruct (blanks_run_shape _ _ _ Hw) as [Hbl Hst].
  repeat split; try assumption.
  - cbn [dotted]. now rewrite Ha, Hf.
  - unfold arguments. cbn [truthy]. 
    pose proof (all_in_not_paren (String b g')) as E.
    cbn [all_in] in E. rewrite Hb, Hg in E. cbn [andb] in E.
    rewrite <- andb_assoc, <- E. reflexivity.
Qed.

Lemma call_split_shape r l f g w r4 :
  call_split r = Some (l, f, g, w, r4) ->
  no_newline l = true
  /\ leftmost l ("CALL." +:+ f +:+ "(" +:+ g +:+ ")" +:+ w +:+ r4) = true
  /\ dotted f = true /\ arguments g = true /\ blank w = true
  /\ line_stop r4 = true.
Proof.
  revert l; induction r as [|a t IH]; intros l; rewrite call_split_eq.
  - destruct (call_here "") as [[[[f' g'] w'] r4']|] eqn:Hh; [|discriminate].
    intros [= <- <- <- <- <-]. repeat split; try apply (call_here_shape _ _ _ _ _ Hh).
  - destruct (call_here (String a t)) as [[[[f' g'] w'] r4']|] eqn:Hh.
    + intros [= <- <- <- <- <-].
      repeat split; try apply (call_here_shape _ _ _ _ _ Hh).
    + destruct (in_cls Any a) eqn:Ha; [|discriminate].
      destruct (call_split t) as [[[[[l' f'] g'] w'] r4']|] eqn:Hs; [|discriminate].
      intros [= <- <- <- <- <-].
      destruct (IH _ eq_refl) as (Hl & Hm & Hrest).
      repeat split; try apply Hrest.
      * unfold no_newline in *. cbn [contains].
        unfold in_cls in Ha. apply negb_true_iff in Ha. now rewrite Ha.
      * cbn [leftmost]. rewrite Hm, andb_true_r.
        rewrite reads_call_here.
        replace (String a l' +:+ _) with (String a t); [now rewrite Hh|].
        rewrite (call_split_sound _ _ _ _ _ _ Hs) at 1. reflexivity.
Qed.

(** *** Newlines *)

Lemma count_app c s t : count c (s +:+ t) = count c s + count c t.
Proof.
  induction s as [|a s IH]; [reflexivity|]. cbn [String.append count].
  rewrite IH. lia.
Qed.

Lemma count_contains c s : contains c s = false -> count c s = 0.
Proof.
  induction s as [|a s IH]; [reflexivity|]. cbn [contains count].
  intros [-> H]%orb_false_iff. now rewrite IH.
Qed.

Lemma count_mangle_ref c pv s :
  c <> "_"%char -> count c (mangle_ref pv s) = count c s.
Proof.
  intros Hc; revert pv; induction s as [|a t IH]; intros pv; [reflexivity|].
  cbn [mangle_ref]. destruct (hit pv (String a t)); cbn [String.append count];
    rewrite IH; [|reflexivity].
  destruct (Ascii.eqb_spec "_" c); [congruence | reflexivity].
Qed.

Lemma count_lstrip c d s : c <> d -> count c (lstrip d s) = count c s.
Proof.
  intros Hc. induction s as [|a t IH]; [reflexivity|]. cbn [lstrip].
  destruct (Ascii.eqb_spec a d) as [->|]; [|reflexivity].
  cbn [count]. rewrite IH. destruct (Ascii.eqb_spec d c); [congruence | reflexivity].
Qed.

Lemma ident_not_newline a : in_cls ident a = true -> Ascii.eqb a newline = false.
Proof. revert a; by_cases_on_char. Qed.

Lemma name_tail_no_newline t : name_tail t = true -> contains newline t = false.
Proof.
  induction t as [|a t IH]; [reflexivity|]. cbn [name_tail contains].
  destruct (in_cls ident a) eqn:Ha.
  - intros Ht. now rewrite (ident_not_newline _ Ha), IH.
  - intros [[Hd _]%andb_true_iff Ht]%andb_true_iff.
    apply Ascii.eqb_eq in Hd; subst a. now rewrite IH.
Qed.

Lemma dotted_no_newline f : dotted f = true -> contains newline f = false.
Proof.
  destruct f as [|a t]; [discriminate|]. cbn [dotted contains].
  intros [Ha Ht]%andb_true_iff.
  now rewrite (ident_not_newline _ (ident0_ident _ Ha)), name_tail_no_newline.
Qed.

Lemma count_fix_calls module l f g w r4 :
  contains newline module = false -> dotted f = true ->
  count newline (fix_calls module (call_pos (l, f, g, w, r4))) =
  count newline l + count newline g.
Proof.
  intros Hm Hf. rewrite fix_calls_call_pos, !count_app.
  assert (count newline
            (if negb (contains "." f) then lstrip "." (module +:+ "." +:+ f) else f) = 0)
    as ->.
  { destruct (negb (contains "." f)).
    - rewrite count_lstrip by discriminate. rewrite !count_app.
      now rewrite (count_contains _ _ Hm), (count_contains _ _ (dotted_no_newline _ Hf)).
    - apply count_contains, dotted_no_newline, Hf. }
  change (count newline "table.insert(ARGV, {") with 0.
  change (count newline "});") with 0.
  change (count newline "_G[redis.call('HGET', ':registry', '") with 0.
  change (count newline "')]();") with 0. lia.
Qed.

Lemma count_rewrite_from module n :
  contains newline module = false ->
  forall pv s, String.length s < n ->
  count newline (rewrite_from module pv s) = count newline s.
Proof.
  intros Hm. induction n as [|n IH]; intros pv s Hn; [lia|].
  rewrite rewrite_from_eq.
  destruct (if bol pv then call_split s else None)
    as [[[[[l f] g] w] r4]|] eqn:E.
  - assert (call_split s = Some (l, f, g, w, r4)) as Hs
        by (destruct (bol pv); [exact E | discriminate]).
    destruct (call_split_shape _ _ _ _ _ _ Hs) as (_ & _ & Hf & _ & Hw & _).
    pose proof (call_split_shorter _ _ _ _ _ _ Hs) as Hlen.
    rewrite count_app, (count_fix_calls _ _ _ _ _ _ Hm Hf).
    cbn [call_pos rest prev]. rewrite IH by lia.
    rewrite (call_split_sound _ _ _ _ _ _ Hs) at 1.
    rewrite !count_app.
    apply andb_true_iff in Hw as [_ Hw]. apply negb_true_iff in Hw.
    rewrite (count_contains _ _ Hw), (count_contains _ _ (dotted_no_newline _ Hf)).
    change (count newline "CALL.") with 0.
    change (count newline "(") with 0.
    change (count newline ")") with 0. lia.
  - destruct s as [|c t]; [reflexivity|]. cbn [count].
    rewrite IH by (cbn [String.length] in Hn; lia). reflexivity.
Qed.

Lemma count_header : count newline CALL_HEADER = 0.
Proof. reflexivity. Qed.

(** *** Lines that no call can end *)

Lemma closes_line_app x y : closes_line y = true -> closes_line (x +:+ y) = true.
Proof.
  intros H. induction x as [|a x IH]; [exact H|].
  cbn [String.append closes_line]. now rewrite IH, orb_true_r.
Qed.

Lemma call_split_closes s x : call_split s = Some x -> closes_line s = true.
Proof.
  destruct x as [[[[l f] g] w] r4]. intros Hs.
  destruct (call_split_shape _ _ _ _ _ _ Hs) as (_ & _ & _ & _ & Hw & Hr).
  rewrite (call_split_sound _ _ _ _ _ _ Hs).
  do 5 apply closes_line_app.
  change (")" +:+ w +:+ r4) with (String ")" (w +:+ r4)).
  cbn [closes_line]. unfold ends_line. now rewrite (blanks_run_blank _ _ Hw Hr).
Qed.

Lemma rewrite_from_no_close module pv s :
  closes_line s = false -> rewrite_from module pv s = s.
Proof.
  revert pv; induction s as [|a t IH]; intros pv H; rewrite rewrite_from_eq.
  - destruct (call_split "") eqn:E; [|now destruct (bol pv)].
    apply call_split_closes in E. discriminate.
  - destruct (call_split (String a t)) eqn:E.
    + apply call_split_closes in E. congruence.
    + cbn [closes_line] in H. apply orb_false_iff in H as [_ H].
      rewrite (IH _ H). now destruct (bol pv).
Qed.

End MoreRewriter.

(** ** Further properties of the registry *)

Module MoreRegistry.
Import Str StrFacts Registry.

Lemma rstrip_snoc c p : rstrip c (p +:+ String c "") = rstrip c p.
Proof.
  induction p as [|a t IH]; cbn [String.append rstrip].
  - now rewrite Ascii.eqb_refl.
  - now rewrite IH.
Qed.

Lemma snoc_not_main p : String.eqb (p +:+ ".") "__main__" = false.
Proof.
  destruct (String.eqb_spec (p +:+ ".") "__main__") as [E|]; [|reflexivity].
  apply (f_equal (last None)) in E. rewrite last_app in E. discriminate E.
Qed.

Lemma publish_prefix_dot p :
  p <> "" -> p <> "__main__" -> publish_prefix (p +:+ ".") = publish_prefix p.
Proof.
  intros Hp Hm. unfold publish_prefix. rewrite snoc_not_main.
  destruct (String.eqb_spec p "__main__"); [contradiction|].
  rewrite (rstrip_snoc "." p).
  destruct p; [contradiction | reflexivity].
Qed.

(** The name of a module, without trailing dots and with one dot, starts
    every name qualified by the module. *)
Lemma rstrip_empty_startswith c t x :
  rstrip c t = "" -> startswith (t +:+ String c x) (String c "") = true.
Proof.
  destruct t as [|a t]; cbn [String.append startswith rstrip].
  - now rewrite Ascii.eqb_refl.
  - destruct (rstrip c t); [|discriminate].
    destruct (Ascii.eqb a c); [reflexivity | discriminate].
Qed.

Lemma startswith_rstrip c m x :
  startswith (m +:+ String c x) (rstrip c m +:+ String c "") = true.
Proof.
  induction m as [|a t IH]; cbn [String.append rstrip startswith].
  - now rewrite Ascii.eqb_refl.
  - destruct (rstrip c t) as [|b u] eqn:E.
    + pose proof (rstrip_empty_startswith c t x E) as H.
      destruct (Ascii.eqb_spec a c) as [->|].
      * cbn [String.append startswith]. now rewrite Ascii.eqb_refl.
      * cbn [String.append startswith]. rewrite Ascii.eqb_refl. exact H.
    + cbn [String.append startswith]. rewrite Ascii.eqb_refl. exact IH.
Qed.

Lemma lstrip_keep c s : startswith s (String c "") = false -> lstrip c s = s.
Proof.
  destruct s as [|a t]; [reflexivity|]. cbn [startswith lstrip].
  rewrite andb_true_r. now intros ->.
Qed.

Lemma startswith_app_l s t p :
  s <> "" -> startswith (s +:+ t) (String p "") = startswith s (String p "").
Proof. destruct s; [contradiction | reflexivity]. Qed.

Lemma qualified_startswith ns name :
  startswith ns "." = false ->
  startswith (lstrip "." (ns +:+ "." +:+ name)) (publish_prefix ns) = true.
Proof.
  intros H. unfold publish_prefix.
  destruct (String.eqb_spec ns "__main__") as [->|Hm]; [reflexivity|].
  destruct ns as [|a t]; [reflexivity|]. cbn [truthy].
  rewrite lstrip_keep by exact H.
  apply (startswith_rstrip "." (String a t) name).
Qed.

Lemma contains_app c s t : contains c (s +:+ t) = contains c s || contains c t.
Proof.
  induction s as [|a s IH]; [reflexivity|]. cbn [String.append contains].
  now rewrite IH, orb_assoc.
Qed.

Lemma lstrip_qualify c m x :
  startswith x (String c "") = false ->
  lstrip c (m +:+ String c x) =
  if truthy (lstrip c m) then lstrip c m +:+ String c x else x.
Proof.
  intros Hx. induction m as [|a t IH]; cbn [String.append lstrip].
  - rewrite Ascii.eqb_refl. now apply lstrip_keep.
  - destruct (Ascii.eqb a c); [exact IH | reflexivity].
Qed.

Lemma dotless_head n : contains "." n = false -> startswith n "." = false.
Proof.
  destruct n as [|a t]; [reflexivity|]. cbn [contains startswith].
  now intros [-> _]%orb_false_iff.
Qed.

Lemma qualify_inj m1 n1 m2 n2 :
  contains "." n1 = false -> contains "." n2 = false ->
  m1 +:+ String "." n1 = m2 +:+ String "." n2 -> m1 = m2 /\ n1 = n2.
Proof.
  intros H1 H2. revert m2; induction m1 as [|a t IH]; intros [|b u];
    cbn [String.append]; intros E.
  - now injection E as ->.
  - injection E as <- ->. rewrite contains_app in H1. cbn [contains] in H1.
    rewrite Ascii.eqb_refl, orb_true_r in H1. discriminate.
  - injection E as -> <-. rewrite contains_app in H2. cbn [contains] in H2.
    rewrite Ascii.eqb_refl, orb_true_r in H2. discriminate.
  - injection E as -> E. destruct (IH _ E) as [-> ->]. now split.
Qed.

Lemma qualified_inj m1 n1 m2 n2 :
  startswith m1 "." = false -> startswith m2 "." = false ->
  contains "." n1 = false -> contains "." n2 = false ->
  lstrip "." (m1 +:+ "." +:+ n1) = lstrip "." (m2 +:+ "." +:+ n2) ->
  m1 = m2 /\ n1 = n2.
Proof.
  intros Hm1 Hm2 H1 H2.
  change (?m +:+ "." +:+ ?n) with (m +:+ String "." n).
  rewrite !lstrip_qualify by now apply dotless_head.
  rewrite (lstrip_keep "." m1 Hm1), (lstrip_keep "." m2 Hm2).
  destruct m1 as [|a1 t1], m2 as [|a2 t2]; cbn [truthy].
  - now intros ->.
  - intros ->. change (String a2 t2 +:+ String "." n2)
      with (String a2 (t2 +:+ String "." n2)) in H1.
    cbn [contains] in H1. rewrite contains_app in H1. cbn [contains] in H1.
    rewrite Ascii.eqb_refl, !orb_true_r in H1. discriminate.
  - intros <-. change (String a1 t1 +:+ String "." n1)
      with (String a1 (t1 +:+ String "." n1)) in H2.
    cbn [contains] in H2. rewrite contains_app in H2. cbn [contains] in H2.
    rewrite Ascii.eqb_refl, !orb_true_r in H2. discriminate.
  - apply qualify_inj; assumption.
Qed.

Lemma module_of_head gl :
  startswith (__name__ gl) "." = false -> startswith (module_of gl) "." = false.
Proof. unfold module_of. now destruct (String.eqb _ _). Qed.

Lemma REGISTRY_send c r w : REGISTRY (send c r w) = REGISTRY w.
Proof. now destruct c. Qed.

Lemma REGISTRY_call name script c gl w :
  REGISTRY (snd (call name script c gl w)) =
  <[lstrip "." (module_of gl +:+ "." +:+ name) :=
      ("f_" +:+ Hashlib.sha1_hexdigest (_fix_calls script (module_of gl)),
       _fix_calls script (module_of gl))]> (REGISTRY w).
Proof. unfold call, module_of; cbn [snd REGISTRY]. now rewrite REGISTRY_send. Qed.

Lemma sent_call name script c gl w :
  sent (snd (call name script c gl w)) =
  sent (send c (Pipeline true
                  [SCRIPT_LOAD (_fix_calls script (module_of gl));
                   HSET ":registry" (lstrip "." (module_of gl +:+ "." +:+ name))
                     ("f_" +:+ Hashlib.sha1_hexdigest (_fix_calls script (module_of gl)))])
          w).
Proof. reflexivity. Qed.

Lemma call_selected name script c gl w :
  startswith (__name__ gl) "." = false ->
  In (lstrip "." (module_of gl +:+ "." +:+ name),
      ("f_" +:+ Hashlib.sha1_hexdigest (_fix_calls script (module_of gl)),
       _fix_calls script (module_of gl)))
     (chosen (publish_prefix (__name__ gl))
        (map_to_list (REGISTRY (snd (call name script c gl w))))).
Proof.
  intros H. unfold chosen. apply List.filter_In. split.
  - apply list_elem_of_In, elem_of_map_to_list.
    rewrite REGISTRY_call. apply lookup_insert_eq.
  - cbn [fst]. unfold module_of.
    destruct (String.eqb_spec (__name__ gl) "__main__") as [E|]; 
      [now rewrite E | now apply qualified_startswith].
Qed.

(** *** Submodules *)

Lemma dotted_not_main p sub : String.eqb (p +:+ "." +:+ sub) "__main__" = false.
Proof.
  destruct (String.eqb_spec (p +:+ "." +:+ sub) "__main__") as [E|]; [|reflexivity].
  apply (f_equal (contains ".")) in E. rewrite contains_app in E.
  cbn in E. rewrite orb_true_r in E. discriminate.
Qed.

Lemma submodule_startswith p sub name :
  startswith p "." = false ->
  startswith (lstrip "." ((p +:+ "." +:+ sub) +:+ "." +:+ name)) (publish_prefix p) = true.
Proof.
  intros H. unfold publish_prefix.
  destruct (String.eqb_spec p "__main__") as [->|Hm]; [reflexivity|].
  destruct p as [|a t]; [reflexivity|]. cbn [truthy].
  rewrite lstrip_keep by exact H.
  rewrite app_assoc.
  apply (startswith_rstrip "." (String a t)).
Qed.

Lemma call_selected_under prefix name script c gl w :
  startswith prefix "." = false ->
  __name__ gl = prefix \/ (exists sub, __name__ gl = prefix +:+ "." +:+ sub) ->
  In (lstrip "." (module_of gl +:+ "." +:+ name),
      ("f_" +:+ Hashlib.sha1_hexdigest (_fix_calls script (module_of gl)),
       _fix_calls script (module_of gl)))
     (chosen (publish_prefix prefix)
        (map_to_list (REGISTRY (snd (call name script c gl w))))).
Proof.
  intros H [E | [sub E]].
  - rewrite <- E in *. now apply call_selected.
  - unfold chosen. apply List.filter_In. split.
    + apply list_elem_of_In, elem_of_map_to_list.
      rewrite REGISTRY_call. apply lookup_insert_eq.
    + cbn [fst]. unfold module_of. rewrite E, dotted_not_main.
      now apply submodule_startswith.
Qed.

End MoreRegistry.

(** ** Names of scripts and the mangler *)

Module Names.
Import Str StrFacts ReFacts Rewriter Mangler Transformation MoreMangler MoreRegistry.

Local Arguments in_cls : simpl never.

Lemma ident_unquoted a : in_cls ident a = true -> in_cls quotes a = false.
Proof. revert a; by_cases_on_char. Qed.

Lemma name_tail_unquoted t :
  name_tail t = true -> all_in (NSet [One "034"; One "'"]) t = true.
Proof.
  induction t as [|a t IH]; [reflexivity|]. cbn [name_tail all_in].
  destruct (in_cls ident a) eqn:Ha.
  - intros Ht. rewrite (IH Ht), andb_true_r.
    apply ident_unquoted in Ha. unfold in_cls, quotes in *. now rewrite Ha.
  - intros [[Hd _]%andb_true_iff Ht]%andb_true_iff.
    apply Ascii.eqb_eq in Hd; subst a. now rewrite IH.
Qed.

Lemma dotted_unquoted f :
  dotted f = true -> all_in (NSet [One "034"; One "'"]) f = true.
Proof.
  destruct f as [|a t]; [discriminate|]. cbn [dotted].
  intros [Ha Ht]%andb_true_iff.
  apply (name_tail_unquoted (String a t)). cbn [name_tail].
  now rewrite (ident0_ident _ Ha).
Qed.

Lemma get_unquoted k s :
  all_in (NSet [One "034"; One "'"]) s = true -> quoted (get k s) = false.
Proof.
  revert k; induction s as [|a t IH]; intros k; [now destruct k|].
  cbn [all_in]. intros [Ha Ht]%andb_true_iff.
  destruct k as [|k]; cbn [get]; [|now apply IH].
  cbn [quoted]. unfold in_cls, quotes in *. now apply negb_true_iff in Ha.
Qed.

Lemma length_mangle_ref_name pv s :
  all_in (NSet [One "034"; One "'"]) s = true -> quoted pv = false ->
  occurs "KEYS" s || occurs "ARGV" s = true ->
  String.length s < String.length (mangle_ref pv s).
Proof.
  revert pv; induction s as [|a t IH]; intros pv Hs Hp Ho; [discriminate|].
  cbn [mangle_ref]. pose proof (length_mangle_ref (Some a) t) as Hlen.
  destruct (hit pv (String a t)) eqn:Hh.
  - cbn [String.append String.length]. lia.
  - cbn [String.append String.length]. apply -> Nat.succ_lt_mono.
    pose proof Hs as [Ha Ht]%andb_true_iff. apply IH; [exact Ht | |].
    + cbn [quoted]. unfold in_cls, quotes in *. now apply negb_true_iff in Ha.
    + unfold hit in Hh. rewrite Hp, (get_unquoted 4 _ Hs), andb_true_r in Hh.
      cbn [negb andb] in Hh. unfold name_at in Hh.
      apply orb_false_iff in Hh as [Hk Hv].
      cbn [occurs] in Ho. rewrite Hk, Hv in Ho. exact Ho.
Qed.

Lemma mangle_name_longer name :
  dotted name = true -> occurs "KEYS" name || occurs "ARGV" name = true ->
  String.length name < String.length (mangle name).
Proof.
  intros Hd Ho. rewrite mangle_mangle_ref.
  apply length_mangle_ref_name; [now apply dotted_unquoted | reflexivity | exact Ho].
Qed.

Lemma qualified_longer m x y :
  startswith x "." = false -> startswith y "." = false ->
  String.length x < String.length y ->
  lstrip "." (m +:+ "." +:+ x) <> lstrip "." (m +:+ "." +:+ y).
Proof.
  intros Hx Hy Hlen E.
  change (?a +:+ "." +:+ ?b) with (a +:+ String "." b) in E.
  rewrite !lstrip_qualify in E by assumption.
  apply (f_equal String.length) in E.
  destruct (truthy (lstrip "." m)); [|lia].
  rewrite !length_app in E. cbn [String.length] in E. lia.
Qed.

Lemma fix_calls_line_text module before l f g w after :
  line_start before = true -> line_stop after = true ->
  no_newline l = true -> occurs "CALL." l = false ->
  dotted f = true -> contains "." f = false -> arguments g = true -> blank w = true ->
  _fix_calls
    (before +:+ l +:+ "CALL." +:+ f +:+ "(" +:+ g +:+ ")" +:+ w +:+ after) module =
  CALL_HEADER
  +:+ rewrite_calls module (mangle before)
  +:+ ("table.insert(ARGV, {" +:+ mangle g +:+ "});" +:+ mangle l
       +:+ "_G[redis.call('HGET', ':registry', '"
       +:+ lstrip "." (module +:+ "." +:+ mangle f) +:+ "')]();")
  +:+ rewrite_calls module (mangle after).
Proof.
  intros Hb Ha Hl Ho Hf Hdot Hg Hw.
  rewrite fix_calls_line by assumption. rewrite fix_calls_call_pos.
  assert (contains "." (mangle f) = false) as ->
    by (rewrite mangle_mangle_ref, contains_mangle_ref; [exact Hdot | discriminate]).
  reflexivity.
Qed.

(** *** Names that no mangled text holds *)

Lemma aliased_prev pv pv' s :
  quoted pv = quoted pv' -> underscore pv = underscore pv' ->
  aliased pv s = aliased pv' s.
Proof.
  intros Hq Hu. destruct s as [|c t]; [reflexivity|]. cbn [aliased].
  rewrite !keys_match. unfold hit. rewrite Hq. fold (underscore pv) (underscore pv').
  now rewrite Hu.
Qed.

Lemma aliased_app pv x y :
  aliased pv (x +:+ y) = true -> aliased (last pv x) y = true.
Proof.
  revert pv; induction x as [|a x IH]; intros pv; [exact (fun H => H)|].
  cbn [String.append aliased last]. intros [_ H]%andb_true_iff. now apply IH.
Qed.

Lemma mangle_not_unaliased x name s :
  last None x = None \/ last None x = Some "."%char ->
  aliased None name = false -> mangle s <> x +:+ name.
Proof.
  intros Hx Hn E.
  pose proof (aliased_mangle_ref None s) as H.
  rewrite <- mangle_mangle_ref, E in H. apply aliased_app in H.
  rewrite (aliased_prev _ None) in H; [congruence | |];
    destruct Hx as [-> | ->]; reflexivity.
Qed.

Lemma qualified_split m name :
  contains "." name = false ->
  exists x, lstrip "." (m +:+ "." +:+ name) = x +:+ name /\
            (x = "" \/ exists m0, m0 <> "" /\ x = m0 +:+ ".").
Proof.
  intros Hn. change (m +:+ "." +:+ name) with (m +:+ String "." name).
  rewrite lstrip_qualify by now apply dotless_head.
  destruct (lstrip "." m) as [|a t] eqn:E; cbn [truthy].
  - exists "". split; [reflexivity | now left].
  - exists (String a t +:+ "."). split.
    + now rewrite app_assoc.
    + right. now exists (String a t).
Qed.

Lemma last_snoc d m c : last d (m +:+ String c "") = Some c.
Proof. now rewrite last_app. Qed.

Lemma key_not_unaliased m f module name :
  contains "." name = false -> aliased None name = false ->
  (if negb (contains "." f) then lstrip "." (m +:+ "." +:+ mangle f) else mangle f)
  <> lstrip "." (module +:+ "." +:+ name).
Proof.
  intros Hn Ha.
  destruct (qualified_split module name Hn) as (X & -> & HX).
  assert (last None X = None \/ last None X = Some "."%char) as HlX.
  { destruct HX as [-> | (m0 & _ & ->)]; [now left | right; apply last_snoc]. }
  destruct (contains "." f) eqn:Hf; cbn [negb].
  - now apply mangle_not_unaliased.
  - assert (contains "." (mangle f) = false) as Hmf
      by (rewrite mangle_mangle_ref, contains_mangle_ref; [exact Hf | discriminate]).
    destruct (qualified_split m (mangle f) Hmf) as (Y & -> & HY).
    destruct HY as [-> | (m0 & Hm0 & ->)].
    + now apply mangle_not_unaliased.
    + destruct HX as [-> | (M0 & HM0 & ->)].
      * intros E. cbn [String.append] in E. rewrite <- E, app_assoc in Hn.
        rewrite contains_app in Hn. cbn [String.append contains] in Hn.
        rewrite Ascii.eqb_refl, orb_true_r in Hn. discriminate.
      * rewrite !app_assoc. intros E.
        destruct (qualify_inj _ _ _ _ Hmf Hn E) as [_ E'].
        now apply (mangle_not_unaliased "" name f (or_introl eq_refl) Ha).
Qed.

Lemma fix_calls_line_key module before l f g w after :
  line_start before = true -> line_stop after = true ->
  no_newline l = true -> occurs "CALL." l = false ->
  dotted f = true -> arguments g = true -> blank w = true ->
  _fix_calls
    (before +:+ l +:+ "CALL." +:+ f +:+ "(" +:+ g +:+ ")" +:+ w +:+ after) module =
  CALL_HEADER
  +:+ rewrite_calls module (mangle before)
  +:+ ("table.insert(ARGV, {" +:+ mangle g +:+ "});" +:+ mangle l
       +:+ "_G[redis.call('HGET', ':registry', '"
       +:+ (if negb (contains "." f) then lstrip "." (module +:+ "." +:+ mangle f)
            else mangle f)
       +:+ "')]();")
  +:+ rewrite_calls module (mangle after).
Proof.
  intros Hb Ha Hl Ho Hf Hg Hw.
  rewrite fix_calls_line by assumption. rewrite fix_calls_call_pos.
  assert (contains "." (mangle f) = contains "." f) as ->
    by (rewrite mangle_mangle_ref; apply contains_mangle_ref; discriminate).
  reflexivity.
Qed.

End Names.

(** ** Runs of the model *)

Module Runs.

(** Test vectors of SHA-1: the empty message, one block, and a message
    whose padding needs a block of its own. *)
Example sha1_empty :
  Hashlib.sha1_hexdigest "" = "da39a3ee5e6b4b0d3255bfef95601890afd80709".
Proof. vm_compute. reflexivity. Qed.

Example sha1_abc :
  Hashlib.sha1_hexdigest "abc" = "a9993e364706816aba3e25717850c26c9cd0d89d".
Proof. vm_compute. reflexivity. Qed.

Example sha1_56_bytes :
  Hashlib.sha1_hexdigest "01234567890123456789012345678901234567890123456789012345" =
  "0a40b8fbdaafb7c29651618ac15d27e772287130".
Proof. vm_compute. reflexivity. Qed.

(** The lazy left part stops at the first marker from which the rest of
    the line matches: here the second one. *)
Example rewrite_second_marker :
  rewrite_calls "m" "x = CALL.a(1) + CALL.b.c(2)" =
  "table.insert(ARGV, {2});x = CALL.a(1) + _G[redis.call('HGET', ':registry', 'b.c')]();".
Proof. vm_compute. reflexivity. Qed.

(** The dotted name takes all it can, a second marker included. *)
Example rewrite_marker_in_name :
  rewrite_calls "m" "CALL.a.CALL.b(x)" =
  "table.insert(ARGV, {x});_G[redis.call('HGET', ':registry', 'a.CALL.b')]();".
Proof. vm_compute. reflexivity. Qed.

(** Blanks between the closing parenthesis and the end of the line belong
    to the match, and go. *)
Example rewrite_trailing_blanks :
  rewrite_calls "m" "CALL.f(x)   
y" =
  "table.insert(ARGV, {x});_G[redis.call('HGET', ':registry', 'm.f')]();
y".
Proof. vm_compute. reflexivity. Qed.

(** The arguments may hold a newline: [[^()]] matches it. *)
Example rewrite_arguments_on_two_lines :
  rewrite_calls "m" "y = CALL.f(a,
b)" =
  "table.insert(ARGV, {a,
b});y = _G[redis.call('HGET', ':registry', 'm.f')]();".
Proof. vm_compute. reflexivity. Qed.

(** A parenthesis in the arguments, no arguments, or text after the
    closing parenthesis: no match, and the line stays. *)
Example rewrite_no_match :
  rewrite_calls "m" "CALL.g((1))
CALL.f()
CALL.h(c) x" =
  "CALL.g((1))
CALL.f()
CALL.h(c) x".
Proof. vm_compute. reflexivity. Qed.

(** The example of the module, registered over a connection. *)
Example example_registered :
  sent (snd (call "call_return" "
return CALL.return_args({}, {1, 2, 3, ARGV})
" Redis {| __name__ := "example"; vars := ∅ |} {| REGISTRY := ∅; sent := [] |})) =
  [Pipeline true
     [SCRIPT_LOAD (CALL_HEADER +:+ "
table.insert(ARGV, {{}, {1, 2, 3, _ARGV}});return _G[redis.call('HGET', ':registry', 'example.return_args')]();
");
      HSET ":registry" "example.call_return"
           "f_392aef8aec4a3b6b26d7b157a637cc96cc41df63"]].
Proof. vm_compute. reflexivity. Qed.

End Runs.

(** * The statements about the module *)

Import Str StrFacts ReFacts Mangler Rewriter Transformation Registry.

(** ** The mangler *)

(** C3 (as amended).  At every occurrence of [KEYS] or [ARGV] the mangler
    does one of two things, whatever the text around: it puts an underscore
    before the name when no quote character stands right before the name
    and none right after it, and it leaves the name as it is when a quote
    character stands on at least one side.  The text before the occurrence
    and the text after it are mangled as they are on their own. *)
Theorem mangle_by_adjacent_quotes pre n post :
  n = "KEYS" \/ n = "ARGV" ->
  mangle (pre +:+ n +:+ post) =
  mangle pre
  +:+ (if quoted (last None pre) || quoted (head post) then n else "_" +:+ n)
  +:+ mangle post.
Proof. exact (mangle_occurrence pre n post). Qed.

Lemma mangle_by_adjacent_quotes_witness :
  mangle "x = 'KEYS of the store'" = "x = 'KEYS of the store'".
Proof.
  exact (mangle_by_adjacent_quotes "x = '" "KEYS" " of the store'" (or_introl eq_refl)).
Defined.

(** C3 as it was stated fails.  In [x = 'KEYS of the store'] the name has a
    quote right before it and a blank right after it: it is not bounded by
    quotes on both sides, and the mangler leaves it as it is. *)
Lemma mangle_one_quote_counterexample :
  quoted (last None "x = '") && quoted (head " of the store'") = false /\
  mangle ("x = '" +:+ "KEYS" +:+ " of the store'") = "x = 'KEYS of the store'" /\
  mangle ("x = '" +:+ "KEYS" +:+ " of the store'") <>
  mangle "x = '" +:+ "_KEYS" +:+ mangle " of the store'".
Proof. repeat split; vm_compute; congruence. Qed.

(** C4.  A name with a quote character right before it and a quote
    character right after it is never mangled; a name with no quote
    character next to it on either side is mangled, also inside a longer
    quoted string. *)
Theorem quoted_name_kept_inner_name_mangled pre n post :
  n = "KEYS" \/ n = "ARGV" ->
  (quoted (last None pre) = true -> quoted (head post) = true ->
   mangle (pre +:+ n +:+ post) = mangle pre +:+ n +:+ mangle post) /\
  (quoted (last None pre) = false -> quoted (head post) = false ->
   mangle (pre +:+ n +:+ post) = mangle pre +:+ "_" +:+ n +:+ mangle post).
Proof.
  intros Hn; rewrite (mangle_occurrence pre n post Hn).
  split; intros -> ->; reflexivity.
Qed.

Lemma quoted_name_kept_inner_name_mangled_witness :
  mangle "local z = redis.call('KEYS', ...)" = "local z = redis.call('KEYS', ...)" /\
  mangle "local string = 'this is a string with KEYS and ARGV, oops!'" =
  "local string = 'this is a string with _KEYS and _ARGV, oops!'".
Proof.
  split.
  - exact (proj1 (quoted_name_kept_inner_name_mangled
                    "local z = redis.call('" "KEYS" "', ...)" (or_introl eq_refl))
                 eq_refl eq_refl).
  - exact (proj2 (quoted_name_kept_inner_name_mangled
                    "local string = 'this is a string with " "KEYS" " and ARGV, oops!'"
                    (or_introl eq_refl))
                 eq_refl eq_refl).
Defined.

(** C9.  The mangler knows no word boundary: a name with an identifier
    character right before it or right after it, and no quote character
    next to it, gets its underscore like any other. *)
Theorem name_inside_identifier_mangled pre n post :
  n = "KEYS" \/ n = "ARGV" ->
  match last None pre with Some a => in_cls ident a | None => false end
  || match head post with Some b => in_cls ident b | None => false end = true ->
  quoted (last None pre) = false -> quoted (head post) = false ->
  mangle (pre +:+ n +:+ post) = mangle pre +:+ "_" +:+ n +:+ mangle post.
Proof.
  intros Hn _ Hpre Hpost.
  now rewrite (mangle_occurrence pre n post Hn), Hpre, Hpost.
Qed.

Lemma name_inside_identifier_mangled_witness :
  mangle "MYKEYS" = "MY_KEYS" /\ mangle "_KEYS" = "__KEYS".
Proof.
  split.
  - exact (name_inside_identifier_mangled "MY" "KEYS" "" (or_introl eq_refl)
             eq_refl eq_refl eq_refl).
  - exact (name_inside_identifier_mangled "_" "KEYS" "" (or_introl eq_refl)
             eq_refl eq_refl eq_refl).
Defined.

(** ** The rewriting of the calls *)

(** C1.  A line that is a left part without a newline, the marker [CALL.],
    a dotted name, an opening parenthesis, arguments without a
    parenthesis, a closing parenthesis and, as the pattern allows, blanks
    up to the end of the line, where the marker is the first one of the
    line that the pattern matches from ([leftmost]), is replaced in any
    text by: the append of [{args}] to [ARGV], the left part as it is, and
    the call of the function that the registry names for the qualified
    name.  The qualified name is the dotted name when it holds a dot, and
    otherwise the module, a dot and the name, without leading dots.  The
    lines before and the lines after are rewritten as they are on their
    own. *)
Theorem call_line_rewritten module before left full args blanks after :
  line_start before = true -> line_stop after = true ->
  no_newline left = true ->
  leftmost left ("CALL." +:+ full +:+ "(" +:+ args +:+ ")" +:+ blanks +:+ after) = true ->
  dotted full = true -> arguments args = true -> blank blanks = true ->
  rewrite_calls module
    (before +:+ left +:+ "CALL." +:+ full +:+ "(" +:+ args +:+ ")" +:+ blanks +:+ after) =
  rewrite_calls module before
  +:+ "table.insert(ARGV, {" +:+ args +:+ "});"
  +:+ left
  +:+ "_G[redis.call('HGET', ':registry', '"
  +:+ (if contains "." full then full else lstrip "." (module +:+ "." +:+ full))
  +:+ "')]();"
  +:+ rewrite_calls module after.
Proof.
  intros Hb Ha Hl Hm Hf Hg Hw.
  rewrite (rewrite_calls_line module before left full args blanks after) by assumption.
  rewrite fix_calls_call_pos. f_equal.
  destruct (contains "." full); cbn [negb];
    repeat first [rewrite app_assoc | progress cbn [String.append]]; reflexivity.
Qed.

Lemma call_line_rewritten_witness :
  rewrite_calls "example" "local a = 1
return CALL.return_args({}, {1, 2, 3, _ARGV})
" =
  "local a = 1
table.insert(ARGV, {{}, {1, 2, 3, _ARGV}});return _G[redis.call('HGET', ':registry', 'example.return_args')]();
".
Proof.
  exact (call_line_rewritten "example" "local a = 1
" "return " "return_args" "{}, {1, 2, 3, _ARGV}" "" "
" eq_refl eq_refl eq_refl eq_refl eq_refl eq_refl eq_refl).
Defined.

(** ** The transformation as a whole *)

(** C2.  The transformed text is the header, then the calls rewritten in
    the mangled source: the names are mangled first, the calls are
    rewritten in the result, and the header comes in front last, for every
    script, with or without calls.  The header is one fixed text.  So
    where the source has a call on a line of its own, what the rewritten
    line appends to [ARGV] is the mangled text of the arguments, and the
    left part and the name of the call are mangled as well. *)
Theorem fix_calls_pipeline script module :
  _fix_calls script module = CALL_HEADER +:+ rewrite_calls module (mangle script) /\
  startswith (_fix_calls script module) CALL_HEADER = true /\
  CALL_HEADER =
  " local _KEYS, _ARGV; if #ARGV == 0 or type(ARGV[#ARGV]) == 'string' then     _KEYS = KEYS;     _ARGV = ARGV; else     _KEYS = ARGV[#ARGV][1];     _ARGV = ARGV[#ARGV][2];     table.remove(ARGV); end;" /\
  forall before left full args blanks after,
    script =
    before +:+ left +:+ "CALL." +:+ full +:+ "(" +:+ args +:+ ")" +:+ blanks +:+ after ->
    line_start before = true -> line_stop after = true ->
    no_newline left = true -> occurs "CALL." left = false ->
    dotted full = true -> arguments args = true -> blank blanks = true ->
    _fix_calls script module =
    CALL_HEADER
    +:+ rewrite_calls module (mangle before)
    +:+ "table.insert(ARGV, {" +:+ mangle args +:+ "});"
    +:+ mangle left
    +:+ "_G[redis.call('HGET', ':registry', '"
    +:+ (if contains "." full then mangle full
         else lstrip "." (module +:+ "." +:+ mangle full))
    +:+ "')]();"
    +:+ rewrite_calls module (mangle after).
Proof.
  split; [reflexivity|]. split; [|split; [reflexivity|]].
  - unfold _fix_calls.
    generalize (sub CALL_RE (fix_calls module) (sub KEYS_RE alias script)).
    intros t. generalize CALL_HEADER.
    intros h; induction h as [|a h IH]; [reflexivity|].
    cbn [String.append startswith]. now rewrite Ascii.eqb_refl.
  - intros before left full args blanks after -> Hb Ha Hl Ho Hf Hg Hw.
    rewrite (fix_calls_line module before left full args blanks after) by assumption.
    rewrite fix_calls_call_pos. do 2 f_equal.
    rewrite (mangle_mangle_ref full), contains_mangle_ref by discriminate.
    rewrite <- (mangle_mangle_ref full).
    destruct (contains "." full); cbn [negb];
      repeat first [rewrite app_assoc | progress cbn [String.append]]; reflexivity.
Qed.

Lemma fix_calls_pipeline_witness :
  _fix_calls "
return CALL.return_args({}, {1, 2, 3, ARGV})
" "example" =
  CALL_HEADER +:+ "
table.insert(ARGV, {{}, {1, 2, 3, _ARGV}});return _G[redis.call('HGET', ':registry', 'example.return_args')]();
".
Proof.
  exact (proj2 (proj2 (proj2 (fix_calls_pipeline "
return CALL.return_args({}, {1, 2, 3, ARGV})
" "example"))) "
" "return " "return_args" "{}, {1, 2, 3, ARGV}" "" "
" eq_refl eq_refl eq_refl eq_refl eq_refl eq_refl eq_refl eq_refl).
Defined.

(** ** The registry and the callers *)

(** C5 (as amended).  [load_scripts] tests every name of the registry
    against one prefix: nothing for an empty prefix, and otherwise the
    prefix without trailing dots followed by one dot.  So with the prefix
    [a] it takes exactly the entries whose name begins with [a.]: neither
    the entries under [ab] nor an entry named [a] itself; with an empty
    prefix it takes every entry.  For the entries taken, each once, it
    queues the load of the transformed text and the setting of the field
    of the name in [:registry] to the identity, sends the queue as one
    pipeline, and returns the number of entries taken. *)
Theorem load_scripts_selects c prefix w :
  let p := publish_prefix prefix in
  let items := chosen p (map_to_list (REGISTRY w)) in
  load_scripts c prefix w =
    (length items, send c (Pipeline true (flat_map commands_of items)) w) /\
  NoDup items /\
  (forall full entry,
     In (full, entry) items <->
     REGISTRY w !! full = Some entry /\ startswith full p = true) /\
  publish_prefix "a" = "a." /\ publish_prefix "" = "" /\
  (forall rest, startswith ("ab" +:+ rest) "a." = false) /\
  startswith "a" "a." = false /\
  chosen "" (map_to_list (REGISTRY w)) = map_to_list (REGISTRY w).
Proof.
  intros p items. split; [apply load_scripts_eq|].
  split.
  { apply NoDup_ListNoDup. unfold items, chosen.
    apply List.NoDup_filter, NoDup_ListNoDup, NoDup_map_to_list. }
  split.
  { intros full entry. unfold items, chosen. rewrite List.filter_In.
    rewrite <- list_elem_of_In, elem_of_map_to_list. reflexivity. }
  repeat split; try reflexivity. apply chosen_all.
Qed.

(** C5 as it was stated fails: an entry whose name is the prefix itself
    is not taken. *)
Lemma load_scripts_exact_name_counterexample :
  load_scripts Redis "a"
    {| REGISTRY := {[ "a" := ("f_0", "return 1") ]}; sent := [] |} =
  (0, {| REGISTRY := {[ "a" := ("f_0", "return 1") ]};
         sent := [Pipeline true []] |}).
Proof. reflexivity. Qed.

(** C6.  The identity that a registration stores is [f_] followed by the
    SHA-1 digest, in hexadecimal, of the transformed text, that is of the
    header followed by the calls rewritten in the mangled source; two
    registrations of one source under one module name store the same
    identity, whatever the names, the connections and the states. *)
Theorem registration_identity script ns name1 name2 c1 c2 vars1 vars2 w1 w2 :
  let module := if String.eqb ns "__main__" then "" else ns in
  let fixed := CALL_HEADER +:+ rewrite_calls module (mangle script) in
  let identity name (r : _ * globals * world) :=
    fst <$> REGISTRY (snd r) !! lstrip "." (module +:+ "." +:+ name) in
  identity name1 (call name1 script c1 {| __name__ := ns; vars := vars1 |} w1) =
    Some ("f_" +:+ Hashlib.sha1_hexdigest fixed) /\
  identity name2 (call name2 script c2 {| __name__ := ns; vars := vars2 |} w2) =
  identity name1 (call name1 script c1 {| __name__ := ns; vars := vars1 |} w1).
Proof.
  intros module fixed identity. unfold identity, call; cbn [snd REGISTRY __name__].
  fold module. now rewrite !lookup_insert_eq.
Qed.



(** C8 (as amended).  The caller that a registration returns, and binds to
    the name in the globals of the registering module, takes a connection,
    a list of keys and a list of arguments and sends one [EVALSHA] command
    over the connection: the SHA-1 digest of the transformed text, without
    the [f_] that the identity in the registry starts with, then the
    number of keys, then the keys followed by the arguments. *)
Theorem caller_sends_digest name script c gl w c' keys argv w' :
  let module := if String.eqb (__name__ gl) "__main__" then "" else __name__ gl in
  let digest := Hashlib.sha1_hexdigest (_fix_calls script module) in
  let r := call name script c gl w in
  fst (fst r) c' keys argv w' =
    send c' (Command (EVALSHA digest (length keys) (keys ++ argv))) w' /\
  sent (fst (fst r) Redis keys argv w') =
    sent w' ++ [Command (EVALSHA digest (length keys) (keys ++ argv))] /\
  vars (snd (fst r)) !! name = Some (fst (fst r)) /\
  fst <$> REGISTRY (snd r) !! lstrip "." (module +:+ "." +:+ name) =
    Some ("f_" +:+ digest).
Proof.
  intros module digest r. unfold r, call; cbn [fst snd vars REGISTRY].
  fold module. fold digest. rewrite !lookup_insert_eq. repeat split.
Qed.

(** C8 as it was stated fails: the identity of the script of the example
    is [f_4b6a...], and its caller sends [4b6a...]. *)
Lemma caller_identity_counterexample :
  fst <$> REGISTRY (snd (call "return_args" "
return ARGV
" Redis {| __name__ := "example"; vars := ∅ |} {| REGISTRY := ∅; sent := [] |}))
          !! "example.return_args" =
    Some "f_4b6abb26850a637ccee199d25914b4be548e4607" /\
  sent (fst (fst (call "return_args" "
return ARGV
" Redis {| __name__ := "example"; vars := ∅ |} {| REGISTRY := ∅; sent := [] |}))
          Redis [] ["1"; "2"; "3"] {| REGISTRY := ∅; sent := [] |}) =
    [Command (EVALSHA "4b6abb26850a637ccee199d25914b4be548e4607" 0 ["1"; "2"; "3"])].
Proof. split; vm_compute; reflexivity. Qed.

(** C10.  The module name [__main__] stands for no module at all.  For a
    name without a dot, as every registration needs, [_register] returns
    the inner function [call], and called from the module [__main__] it
    stores the entry under the bare name and sets the field of the bare
    name, and the script is transformed for the empty module;
    [load_scripts] with the prefix [__main__] does what it does with the
    empty prefix, and takes every entry of the registry. *)
Theorem main_is_no_module name script c vs w :
  contains "." name = false ->
  let fixed := _fix_calls script "" in
  let identity := "f_" +:+ Hashlib.sha1_hexdigest fixed in
  let r := call name script c {| __name__ := "__main__"; vars := vs |} w in
  _register name = Ok (call name) /\
  REGISTRY (snd r) = <[name := (identity, fixed)]> (REGISTRY w) /\
  sent (snd r) =
    sent (send c (Pipeline true [SCRIPT_LOAD fixed; HSET ":registry" name identity]) w) /\
  load_scripts c "__main__" w = load_scripts c "" w /\
  load_scripts c "__main__" w =
    (size (REGISTRY w),
     send c (Pipeline true (flat_map commands_of (map_to_list (REGISTRY w)))) w).
Proof.
  intros Hname fixed identity r.
  split; [unfold _register; now rewrite Hname|].
  unfold r, call; cbn [snd REGISTRY sent __name__ String.eqb Ascii.eqb Bool.eqb].
  rewrite (lstrip_no_dot name Hname). fold fixed. fold identity.
  split; [now destruct c|]. split; [now destruct c|]. split; [reflexivity|].
  rewrite load_scripts_eq.
  change (publish_prefix "__main__") with "". rewrite chosen_all.
  now rewrite length_map_to_list.
Qed.

Lemma main_is_no_module_witness :
  REGISTRY (snd (call "one" "return 1" dummy
                   {| __name__ := "__main__"; vars := ∅ |}
                   {| REGISTRY := ∅; sent := [] |})) =
  <[ "one" := ("f_" +:+ Hashlib.sha1_hexdigest (_fix_calls "return 1" ""),
               _fix_calls "return 1" "") ]> ∅.
Proof.
  exact (proj1 (proj2 (main_is_no_module "one" "return 1" dummy ∅
                         {| REGISTRY := ∅; sent := [] |} eq_refl))).
Defined.

(** * Further properties of the module *)

Import MoreMangler MoreRewriter MoreRegistry Names.

(** ** The mangler *)

(** X1.  A text in which neither [KEYS] nor [ARGV] occurs passes the
    mangler, [KEYS_RE.sub], unchanged. *)
Theorem mangle_without_names s :
  occurs "KEYS" s = false -> occurs "ARGV" s = false -> mangle s = s.
Proof. intros Hk Hv. rewrite mangle_mangle_ref. now apply mangle_ref_no_name. Qed.

Lemma mangle_without_names_witness :
  mangle "return redis.call('PING')" = "return redis.call('PING')".
Proof. exact (mangle_without_names "return redis.call('PING')" eq_refl eq_refl). Defined.

(** X2.  The mangler only inserts underscores: the text without its
    underscores is the same before and after, for every text, and the
    mangled text is never shorter. *)
Theorem mangle_only_adds_underscores s :
  replace "_" "" (mangle s) = replace "_" "" s /\
  String.length s <= String.length (mangle s).
Proof.
  rewrite mangle_mangle_ref. split.
  - apply replace_underscore_mangle_ref.
  - apply length_mangle_ref.
Qed.

(** X3.  In a mangled text every place where [KEYS_RE] still matches has
    an underscore right before it: each reference to the argument vectors
    that the mangler recognises has become one to [_KEYS] or [_ARGV]. *)
Theorem mangled_text_aliased s : aliased None (mangle s) = true.
Proof. rewrite mangle_mangle_ref. apply aliased_mangle_ref. Qed.

(** X4.  The mangler works on the two sides of a newline apart: the
    mangling of two texts joined by a newline is the two manglings joined
    by a newline. *)
Theorem mangle_line_by_line a b :
  mangle (a +:+ String newline b) = mangle a +:+ String newline (mangle b).
Proof. now apply mangle_apart. Qed.

(** ** The rewriting of the calls *)

(** X5.  A text in which [CALL.] does not occur passes [CALL_RE.sub]
    unchanged, and [_fix_calls] only mangles it and puts the header before
    it. *)
Theorem rewrite_without_marker module s :
  occurs "CALL." s = false ->
  rewrite_calls module s = s /\
  _fix_calls s module = CALL_HEADER +:+ mangle s.
Proof.
  intros H. split.
  - change (rewrite_calls module s) with (rewrite_from module None s).
    now apply rewrite_from_no_marker.
  - change (_fix_calls s module)
      with (CALL_HEADER +:+ rewrite_from module None (mangle s)).
    rewrite rewrite_from_no_marker; [reflexivity|].
    rewrite mangle_mangle_ref. now apply occurs_mangle_ref.
Qed.

Lemma rewrite_without_marker_witness :
  rewrite_calls "example" "return ARGV" = "return ARGV" /\
  _fix_calls "return ARGV" "example" = CALL_HEADER +:+ mangle "return ARGV".
Proof. exact (rewrite_without_marker "example" "return ARGV" eq_refl). Defined.

(** X6.  A call is rewritten only where it ends its line.  In a text of
    which no line ends with a closing parenthesis, blanks apart, nothing is
    rewritten: a call followed by a semicolon or used inside an expression
    stays as it is. *)
Theorem call_not_ending_line_kept module s :
  closes_line s = false -> rewrite_calls module s = s.
Proof.
  intros H. change (rewrite_calls module s) with (rewrite_from module None s).
  now apply rewrite_from_no_close.
Qed.

Lemma call_not_ending_line_kept_witness :
  rewrite_calls "example" "local x = CALL.f(a) + 1
CALL.g(x);" = "local x = CALL.f(a) + 1
CALL.g(x);".
Proof.
  exact (call_not_ending_line_kept "example" "local x = CALL.f(a) + 1
CALL.g(x);" eq_refl).
Defined.

(** X7.  What a match of [CALL_RE] is made of.  It starts at the start of
    a line, and the text from there on is: group 1, without a newline and
    with no place inside it where the rest of the pattern matches;
    [CALL.]; group 2, a dotted name; an opening parenthesis; group 3, not
    empty and without parentheses; a closing parenthesis; blanks; and the
    text left after the match, which is empty or starts with a newline. *)
Theorem call_re_match_shape pv r e :
  match_at CALL_RE pv r = Some e ->
  bol pv = true /\
  exists blanks,
    r = group 1 e +:+ "CALL." +:+ group 2 e +:+ "(" +:+ group 3 e +:+ ")"
        +:+ blanks +:+ rest e /\
    no_newline (group 1 e) = true /\
    leftmost (group 1 e)
      ("CALL." +:+ group 2 e +:+ "(" +:+ group 3 e +:+ ")" +:+ blanks +:+ rest e) = true /\
    dotted (group 2 e) = true /\ arguments (group 3 e) = true /\
    blank blanks = true /\ line_stop (rest e) = true.
Proof.
  rewrite call_re_match. fold (bol pv). destruct (bol pv); [|discriminate].
  destruct (call_split r) as [[[[[l f] g] w] r4]|] eqn:Hs; [|discriminate].
  intros [= <-]. split; [reflexivity|]. exists w.
  change (group 1 (call_pos (l, f, g, w, r4))) with l.
  change (group 2 (call_pos (l, f, g, w, r4))) with f.
  change (group 3 (call_pos (l, f, g, w, r4))) with g.
  cbn [call_pos rest].
  split; [exact (call_split_sound _ _ _ _ _ _ Hs)|].
  exact (call_split_shape _ _ _ _ _ _ Hs).
Qed.

Lemma call_re_match_shape_witness :
  bol None = true /\
  exists blanks,
    "return CALL.f(x) " =
      "return " +:+ "CALL." +:+ "f" +:+ "(" +:+ "x" +:+ ")" +:+ blanks +:+ "" /\
    no_newline "return " = true /\
    leftmost "return " ("CALL." +:+ "f" +:+ "(" +:+ "x" +:+ ")" +:+ blanks +:+ "") = true /\
    dotted "f" = true /\ arguments "x" = true /\
    blank blanks = true /\ line_stop "" = true.
Proof.
  exact (call_re_match_shape None "return CALL.f(x) "
           {| prev := Some " "%char; rest := "";
              caps := [(3, "x"); (2, "f"); (1, "return ")] |} eq_refl).
Defined.

(** X8.  [_fix_calls] keeps the number of newlines: the header holds
    none, and for a module name without a newline the transformed script
    has exactly as many newlines as the script.  Text may still change
    its line inside a rewritten call, where the arguments are put before
    the text to the left of the call. *)
Theorem fix_calls_keeps_lines script module :
  contains newline module = false ->
  count newline (_fix_calls script module) = count newline script /\
  contains newline CALL_HEADER = false.
Proof.
  intros Hm. split; [|reflexivity].
  unfold _fix_calls. fold (mangle script). fold (rewrite_calls module (mangle script)).
  rewrite count_app, count_header.
  change (rewrite_calls module (mangle script))
    with (rewrite_from module None (mangle script)).
  rewrite (count_rewrite_from module _ Hm None (mangle script) (Nat.lt_succ_diag_r _)).
  rewrite mangle_mangle_ref. apply count_mangle_ref. discriminate.
Qed.

Lemma fix_calls_keeps_lines_witness :
  count newline (_fix_calls "local a = KEYS[1]
return CALL.f({a},
  {ARGV[1]})
" "example") = count newline "local a = KEYS[1]
return CALL.f({a},
  {ARGV[1]})
" /\
  contains newline CALL_HEADER = false.
Proof.
  exact (fix_calls_keeps_lines "local a = KEYS[1]
return CALL.f({a},
  {ARGV[1]})
" "example" eq_refl).
Defined.

(** ** Names *)

(** X9.  A call by a bare name finds the script registered under that
    name from the same module.  For a name that is an identifier and holds
    neither [KEYS] nor [ARGV], the registration stores the entry under the
    qualified name and sets that field of [:registry] to the identity; a
    line [CALL.name(args)] of a script of the same module is rewritten to
    a lookup of the same field. *)
Theorem call_finds_registration name body c gl w before l g blanks after :
  dotted name = true -> contains "." name = false ->
  occurs "KEYS" name = false -> occurs "ARGV" name = false ->
  line_start before = true -> line_stop after = true ->
  no_newline l = true -> occurs "CALL." l = false ->
  arguments g = true -> blank blanks = true ->
  let module := module_of gl in
  let key := lstrip "." (module +:+ "." +:+ name) in
  let fixed := _fix_calls body module in
  REGISTRY (snd (call name body c gl w)) !! key =
    Some ("f_" +:+ Hashlib.sha1_hexdigest fixed, fixed) /\
  sent (snd (call name body Redis gl w)) =
    sent w ++ [Pipeline true [SCRIPT_LOAD fixed;
                              HSET ":registry" key
                                ("f_" +:+ Hashlib.sha1_hexdigest fixed)]] /\
  _fix_calls
    (before +:+ l +:+ "CALL." +:+ name +:+ "(" +:+ g +:+ ")" +:+ blanks +:+ after)
    module =
  CALL_HEADER
  +:+ rewrite_calls module (mangle before)
  +:+ ("table.insert(ARGV, {" +:+ mangle g +:+ "});" +:+ mangle l
       +:+ "_G[redis.call('HGET', ':registry', '" +:+ key +:+ "')]();")
  +:+ rewrite_calls module (mangle after).
Proof.
  intros Hd Hdot Hk Hv Hb Ha Hl Ho Hg Hw module key fixed.
  split; [|split].
  - rewrite REGISTRY_call. apply lookup_insert_eq.
  - reflexivity.
  - rewrite fix_calls_line_text by assumption.
    rewrite (mangle_mangle_ref name), (mangle_ref_no_name None name Hk Hv).
    reflexivity.
Qed.

Lemma call_finds_registration_witness :
  _fix_calls
    ("" +:+ "return " +:+ "CALL." +:+ "return_args" +:+ "(" +:+ "{}, {1}" +:+ ")"
     +:+ "" +:+ "")
    (module_of {| __name__ := "example"; vars := ∅ |}) =
  CALL_HEADER
  +:+ rewrite_calls (module_of {| __name__ := "example"; vars := ∅ |}) (mangle "")
  +:+ ("table.insert(ARGV, {" +:+ mangle "{}, {1}" +:+ "});" +:+ mangle "return "
       +:+ "_G[redis.call('HGET', ':registry', '"
       +:+ lstrip "." (module_of {| __name__ := "example"; vars := ∅ |}
                       +:+ "." +:+ "return_args")
       +:+ "')]();")
  +:+ rewrite_calls (module_of {| __name__ := "example"; vars := ∅ |}) (mangle "").
Proof.
  exact (proj2 (proj2 (call_finds_registration "return_args" "return ARGV" dummy
                         {| __name__ := "example"; vars := ∅ |}
                         {| REGISTRY := ∅; sent := [] |}
                         "" "return " "{}, {1}" "" ""
                         eq_refl eq_refl eq_refl eq_refl eq_refl eq_refl
                         eq_refl eq_refl eq_refl eq_refl))).
Defined.

(** X10.  A call spelt with the name under which a script is registered
    does not look that script up when the name holds [KEYS] or [ARGV].  The
    mangler runs before the calls are rewritten and changes the name
    inside the call, so the rewritten call looks up the mangled name: a
    field other than the one that the registration sets, and a key that
    the registration leaves as it was in the registry.  (Another spelling
    may still reach the script: the call of [getKEYS] looks up
    [get_KEYS].) *)
Theorem call_misses_name_with_KEYS name body c gl w before l g blanks after :
  dotted name = true -> contains "." name = false ->
  occurs "KEYS" name || occurs "ARGV" name = true ->
  line_start before = true -> line_stop after = true ->
  no_newline l = true -> occurs "CALL." l = false ->
  arguments g = true -> blank blanks = true ->
  let module := module_of gl in
  let key := lstrip "." (module +:+ "." +:+ mangle name) in
  _fix_calls
    (before +:+ l +:+ "CALL." +:+ name +:+ "(" +:+ g +:+ ")" +:+ blanks +:+ after)
    module =
  CALL_HEADER
  +:+ rewrite_calls module (mangle before)
  +:+ ("table.insert(ARGV, {" +:+ mangle g +:+ "});" +:+ mangle l
       +:+ "_G[redis.call('HGET', ':registry', '" +:+ key +:+ "')]();")
  +:+ rewrite_calls module (mangle after) /\
  key <> lstrip "." (module +:+ "." +:+ name) /\
  REGISTRY (snd (call name body c gl w)) !! key = REGISTRY w !! key.
Proof.
  intros Hd Hdot Hn Hb Ha Hl Ho Hg Hw module key.
  assert (key <> lstrip "." (module +:+ "." +:+ name)) as Hne.
  { intros E. symmetry in E. revert E. apply qualified_longer.
    - now apply dotless_head.
    - apply dotless_head. rewrite mangle_mangle_ref, contains_mangle_ref;
        [exact Hdot | discriminate].
    - now apply mangle_name_longer. }
  split; [now apply fix_calls_line_text|]. split; [exact Hne|].
  rewrite REGISTRY_call. apply lookup_insert_ne.
  intros E. apply Hne. symmetry. exact E.
Qed.

Lemma call_misses_name_with_KEYS_witness :
  lstrip "." (module_of {| __name__ := "example"; vars := ∅ |}
              +:+ "." +:+ mangle "get_KEYS") <>
  lstrip "." (module_of {| __name__ := "example"; vars := ∅ |}
              +:+ "." +:+ "get_KEYS").
Proof.
  exact (proj1 (proj2 (call_misses_name_with_KEYS "get_KEYS" "return KEYS" dummy
                         {| __name__ := "example"; vars := ∅ |}
                         {| REGISTRY := ∅; sent := [] |}
                         "" "return " "x" "" ""
                         eq_refl eq_refl eq_refl eq_refl eq_refl
                         eq_refl eq_refl eq_refl eq_refl))).
Defined.

(** X15.  A script registered under a name in which [KEYS] or [ARGV]
    stands without an underscore right before it, such as [getKEYS],
    cannot be looked up by a call line, however the call is spelt and from
    whatever module.  For a name without a dot at some position of which
    [KEYS_RE] matches with no underscore before it, and for every call
    line with a dotted name [f] in a script of a module [m], the field
    that the rewritten line looks up, the mangled [f] qualified by [m]
    when [f] holds no dot, is not the field that the registration sets,
    and is a key that the registration leaves as it was in the registry. *)
Theorem call_never_finds_unaliased_name name body c gl w m f before l g blanks after :
  contains "." name = false -> aliased None name = false ->
  line_start before = true -> line_stop after = true ->
  no_newline l = true -> occurs "CALL." l = false ->
  dotted f = true -> arguments g = true -> blank blanks = true ->
  let key :=
    if negb (contains "." f) then lstrip "." (m +:+ "." +:+ mangle f) else mangle f in
  _fix_calls
    (before +:+ l +:+ "CALL." +:+ f +:+ "(" +:+ g +:+ ")" +:+ blanks +:+ after) m =
  CALL_HEADER
  +:+ rewrite_calls m (mangle before)
  +:+ ("table.insert(ARGV, {" +:+ mangle g +:+ "});" +:+ mangle l
       +:+ "_G[redis.call('HGET', ':registry', '" +:+ key +:+ "')]();")
  +:+ rewrite_calls m (mangle after) /\
  key <> lstrip "." (module_of gl +:+ "." +:+ name) /\
  REGISTRY (snd (call name body c gl w)) !! key = REGISTRY w !! key.
Proof.
  intros Hn Hu Hb Ha Hl Ho Hf Hg Hw key.
  pose proof (key_not_unaliased m f (module_of gl) name Hn Hu) as Hne.
  fold key in Hne.
  split; [now apply fix_calls_line_key|]. split; [exact Hne|].
  rewrite REGISTRY_call. apply lookup_insert_ne.
  intros E. apply Hne. symmetry. exact E.
Qed.

Lemma call_never_finds_unaliased_name_witness :
  (if negb (contains "." "getKEYS")
   then lstrip "." ("example" +:+ "." +:+ mangle "getKEYS")
   else mangle "getKEYS") <>
  lstrip "." (module_of {| __name__ := "example"; vars := ∅ |}
              +:+ "." +:+ "getKEYS").
Proof.
  exact (proj1 (proj2 (call_never_finds_unaliased_name "getKEYS" "return KEYS" dummy
                         {| __name__ := "example"; vars := ∅ |}
                         {| REGISTRY := ∅; sent := [] |}
                         "example" "getKEYS" "" "return " "x" "" ""
                         eq_refl eq_refl eq_refl eq_refl eq_refl
                         eq_refl eq_refl eq_refl eq_refl))).
Defined.

(** X11.  Registrations under different names, or from different modules,
    never share an entry of the registry.  For names without a dot, as
    every registration needs, and module names that do not start with a
    dot, a second registration leaves the entry of the first one as the
    first one stored it. *)
Theorem registrations_do_not_collide name1 script1 c1 gl1 name2 script2 c2 gl2 w :
  contains "." name1 = false -> contains "." name2 = false ->
  startswith (__name__ gl1) "." = false -> startswith (__name__ gl2) "." = false ->
  (module_of gl1, name1) <> (module_of gl2, name2) ->
  let w1 := snd (call name1 script1 c1 gl1 w) in
  let w2 := snd (call name2 script2 c2 gl2 w1) in
  let full1 := lstrip "." (module_of gl1 +:+ "." +:+ name1) in
  REGISTRY w2 !! full1 = REGISTRY w1 !! full1 /\
  REGISTRY w1 !! full1 =
    Some ("f_" +:+ Hashlib.sha1_hexdigest (_fix_calls script1 (module_of gl1)),
          _fix_calls script1 (module_of gl1)).
Proof.
  intros H1 H2 Hm1 Hm2 Hne w1 w2 full1. split.
  - unfold w2. rewrite REGISTRY_call. apply lookup_insert_ne.
    intros E. apply Hne.
    destruct (qualified_inj _ _ _ _ (module_of_head _ Hm2) (module_of_head _ Hm1)
                H2 H1 E) as [-> ->]. reflexivity.
  - unfold w1. rewrite REGISTRY_call. apply lookup_insert_eq.
Qed.

Lemma registrations_do_not_collide_witness :
  REGISTRY (snd (call "one" "return 2" dummy {| __name__ := "b"; vars := ∅ |}
                   (snd (call "one" "return 1" dummy {| __name__ := "a"; vars := ∅ |}
                           {| REGISTRY := ∅; sent := [] |}))))
    !! lstrip "." (module_of {| __name__ := "a"; vars := ∅ |} +:+ "." +:+ "one") =
  REGISTRY (snd (call "one" "return 1" dummy {| __name__ := "a"; vars := ∅ |}
                   {| REGISTRY := ∅; sent := [] |}))
    !! lstrip "." (module_of {| __name__ := "a"; vars := ∅ |} +:+ "." +:+ "one").
Proof.
  refine (proj1 (registrations_do_not_collide
                   "one" "return 1" dummy {| __name__ := "a"; vars := ∅ |}
                   "one" "return 2" dummy {| __name__ := "b"; vars := ∅ |}
                   {| REGISTRY := ∅; sent := [] |}
                   eq_refl eq_refl eq_refl eq_refl _)).
  vm_compute. discriminate.
Defined.

(** ** [load_scripts] *)

(** X12.  A dot at the end of the prefix makes no difference to
    [load_scripts], for a prefix that is neither empty nor [__main__]. *)
Theorem load_scripts_trailing_dot c prefix w :
  prefix <> "" -> prefix <> "__main__" ->
  load_scripts c (prefix +:+ ".") w = load_scripts c prefix w.
Proof.
  intros Hp Hm. rewrite !load_scripts_eq. now rewrite publish_prefix_dot.
Qed.

Lemma load_scripts_trailing_dot_witness :
  load_scripts Redis ("example" +:+ ".")
    {| REGISTRY := {[ "example.one" := ("f_0", "return 1") ]}; sent := [] |} =
  load_scripts Redis "example"
    {| REGISTRY := {[ "example.one" := ("f_0", "return 1") ]}; sent := [] |}.
Proof.
  apply load_scripts_trailing_dot; vm_compute; discriminate.
Defined.

(** X13.  [load_scripts] with the name of a module takes the scripts
    registered from that module and from its submodules, as its docstring
    promises.  After a registration from the module [prefix] or from a
    module [prefix.sub], for a prefix that does not start with a dot and
    whatever the connection of the registration was, [load_scripts] with
    that prefix sends one pipeline that holds the load of the transformed
    text and the setting of the field of the qualified name to the
    identity, and counts at least one script. *)
Theorem load_scripts_takes_module_and_submodules prefix name script c gl w :
  startswith prefix "." = false ->
  __name__ gl = prefix \/ (exists sub, __name__ gl = prefix +:+ "." +:+ sub) ->
  let module := module_of gl in
  let fixed := _fix_calls script module in
  let full := lstrip "." (module +:+ "." +:+ name) in
  let w' := snd (call name script c gl w) in
  exists queue,
    snd (load_scripts Redis prefix w') =
      {| REGISTRY := REGISTRY w'; sent := sent w' ++ [Pipeline true queue] |} /\
    In (SCRIPT_LOAD fixed) queue /\
    In (HSET ":registry" full ("f_" +:+ Hashlib.sha1_hexdigest fixed)) queue /\
    1 <= fst (load_scripts Redis prefix w').
Proof.
  intros H Hm module fixed full w'. rewrite load_scripts_eq. cbn [fst snd send].
  pose proof (call_selected_under prefix name script c gl w H Hm) as Hin.
  fold w' in Hin.
  eexists. split; [reflexivity|]. repeat split.
  - apply in_flat_map. eexists. split; [exact Hin|]. now left.
  - apply in_flat_map. eexists. split; [exact Hin|]. right. now left.
  - destruct (chosen _ _); [destruct Hin | cbn; lia].
Qed.

Lemma load_scripts_takes_module_and_submodules_witness :
  1 <= fst (load_scripts Redis "example"
              (snd (call "one" "return 1" dummy
                      {| __name__ := "example.sub"; vars := ∅ |}
                      {| REGISTRY := ∅; sent := [] |}))).
Proof.
  destruct (load_scripts_takes_module_and_submodules "example" "one" "return 1" dummy
              {| __name__ := "example.sub"; vars := ∅ |}
              {| REGISTRY := ∅; sent := [] |} eq_refl
              (or_intror (ex_intro _ "sub" eq_refl)))
    as (queue & _ & _ & _ & H).
  exact H.
Defined.


